(** * llm_generator: attachments, response extraction and fallback documentation

    A shallow embedding of [app/llm_generator.py].  Python values are
    modelled as follows.

    - [str] is a list of Unicode code points ([N]); literals of the source
      are written with [py "..."].
    - [bytes] is a list of octets ([N] below 256).
    - [int] is [Z]; indices returned by [str.find] keep Python's [-1].
    - an exception raised by an operation is a value of [exn], carried by
      [result]; [try ... except Exception] is [try_except].
    - a value read from an input dictionary that need not be a string is a
      [pyvalue].
    - the file system, [pathlib], the resolution of a path to a file, the
      text-generation service and [repr] are the fields of the class
      [Env]. *)

From Stdlib Require Import ZArith NArith List Ascii String Lia DecimalString.
From stdpp Require Import base option list gmap.

Local Open Scope Z_scope.

(** ** Python strings *)

Abbreviation pystr := (list N).
Abbreviation pybytes := (list N).

Definition py (s : string) : pystr :=
  map N_of_ascii (list_ascii_of_string s).

(** [len(x)] *)
Definition len {A} (l : list A) : Z := Z.of_nat (length l).

(** [s.startswith(p)] *)
Fixpoint startswith (s p : pystr) {struct p} : bool :=
  match p, s with
  | [], _ => true
  | _ :: _, [] => false
  | a :: p', b :: s' => N.eqb a b && startswith s' p'
  end.

(** [s.endswith(p)] *)
Definition endswith (s p : pystr) : bool :=
  startswith (rev s) (rev p).

(** [s.find(sub)], scanning from the left; [i] is the index of the head of
    [s] in the string the scan started on. *)
Fixpoint find_at (s sub : pystr) (i : Z) : Z :=
  if startswith s sub then i
  else match s with
       | [] => -1
       | _ :: s' => find_at s' sub (i + 1)
       end.

Definition find (s sub : pystr) : Z := find_at s sub 0.

(** Python normalises a slice bound: a negative bound counts from the end,
    and the result is clamped to [0, len]. *)
Definition clamp (s : pystr) (i : Z) : Z :=
  if i <? 0 then Z.max (i + len s) 0 else Z.min i (len s).

(** [s.find(sub, start)] *)
Definition find_from (s sub : pystr) (start : Z) : Z :=
  if len s <? start then -1
  else let st := clamp s start in
       find_at (drop (Z.to_nat st) s) sub st.

(** [s.rfind(sub)]: the highest index at which [sub] occurs. *)
Fixpoint rfind_at (s sub : pystr) (i : Z) : Z :=
  match s with
  | [] => if startswith [] sub then i else -1
  | _ :: s' =>
      let r := rfind_at s' sub (i + 1) in
      if r =? -1 then (if startswith s sub then i else -1) else r
  end.

Definition rfind (s sub : pystr) : Z := rfind_at s sub 0.

(** [sub in s] *)
Definition contains (s sub : pystr) : bool := negb (find s sub =? -1).

(** [s[i]]; [None] stands for [IndexError]. *)
Definition getitem (s : pystr) (i : Z) : option N :=
  let j := if i <? 0 then i + len s else i in
  if (j <? 0) || (len s <=? j) then None else s !! Z.to_nat j.

(** [s[a:b]] *)
Definition slice (s : pystr) (a b : Z) : pystr :=
  let a' := clamp s a in
  let b' := clamp s b in
  take (Z.to_nat (b' - a')) (drop (Z.to_nat a') s).

(** [s.split(sep, maxsplit)] for a non-empty [sep] (every call site passes a
    non-empty literal); a negative [maxsplit] is no limit.  Each cut removes
    at least one character, so [length s] rounds are enough. *)
Fixpoint split_fuel (fuel : nat) (s sep : pystr) (maxsplit : Z) : list pystr :=
  match fuel with
  | O => [s]
  | S fuel' =>
      if maxsplit =? 0 then [s]
      else
        let i := find s sep in
        if i =? -1 then [s]
        else take (Z.to_nat i) s
               :: split_fuel fuel' (drop (Z.to_nat i + length sep) s) sep
                    (maxsplit - 1)
  end.

Definition split_max (s sep : pystr) (maxsplit : Z) : list pystr :=
  split_fuel (length s) s sep maxsplit.

Definition split (s sep : pystr) : list pystr := split_max s sep (-1).

(** [sep.join(l)] *)
Fixpoint join (sep : pystr) (l : list pystr) : pystr :=
  match l with
  | [] => []
  | [x] => x
  | x :: l' => x ++ sep ++ join sep l'
  end.

(** [s.replace(old, new)] for a non-empty [old]: every non-overlapping
    occurrence, left to right. *)
Definition replace (s old new : pystr) : pystr := join new (split s old).

(** [str.isspace] on one code point: the characters [str.strip()] removes. *)
Definition isspace (c : N) : bool :=
  ((9 <=? c) && (c <=? 13) || (28 <=? c) && (c <=? 32)
   || (c =? 133) || (c =? 160) || (c =? 5760)
   || (8192 <=? c) && (c <=? 8202)
   || (c =? 8232) || (c =? 8233) || (c =? 8239) || (c =? 8287)
   || (c =? 12288))%N.

Fixpoint lstrip (s : pystr) : pystr :=
  match s with
  | [] => []
  | c :: s' => if isspace c then lstrip s' else s
  end.

Definition rstrip (s : pystr) : pystr := rev (lstrip (rev s)).

(** [s.strip()] *)
Definition strip (s : pystr) : pystr := rstrip (lstrip s).

(** [str(n)] for an [int]. *)
Definition str_of_int (n : Z) : pystr :=
  py (NilZero.string_of_int (Z.to_int n)).

Definition NL : pystr := [10%N].
Definition FENCE : pystr := py "```".

(** ** Exceptions *)

Inductive exn : Type :=
| IndexError (msg : pystr)
| ValueError (msg : pystr)
| AttributeError (msg : pystr)
| BinasciiError (msg : pystr)
| OSError (msg : pystr)
| StopIteration
| GenericException (msg : pystr).

(** [str(e)] *)
Definition str_of_exn (e : exn) : pystr :=
  match e with
  | IndexError m | ValueError m | AttributeError m | BinasciiError m
  | OSError m | GenericException m => m
  | StopIteration => []
  end.

Inductive result (A : Type) : Type :=
| Ok (a : A)
| Raise (e : exn).
Arguments Ok {A} a.
Arguments Raise {A} e.

#[global] Instance result_ret : MRet result := fun A a => Ok a.

#[global] Instance result_bind : MBind result := fun A B k r =>
  match r with
  | Ok a => k a
  | Raise e => Raise e
  end.

(** [try: body / except Exception as e: handler(e)] *)
Definition try_except {A} (body : result A) (handler : exn -> result A)
  : result A :=
  match body with
  | Ok a => Ok a
  | Raise e => handler e
  end.

(** ** ResponseExtractor: [_strip_code_block] *)

Definition _strip_code_block (text : pystr) : result pystr :=
  if contains text FENCE then
    let start := find text FENCE + 3 in
    match getitem text start with
    | None => Raise (IndexError (py "string index out of range"))
    | Some c =>
        let start :=
          if negb (N.eqb c 10) then find_from text NL start + 1 else start in
        let end_ := rfind text FENCE in
        if end_ >? start then Ok (strip (slice text start end_))
        else Ok (strip text)
    end
  else Ok (strip text).

(** ** The environment

    The file system is a finite map from files to their contents.  A file
    is not the string that names it: [open] resolves a path ([..], [.],
    doubled separators, links) before it reaches a file, and two paths can
    name one file.  The key of a file in the map is what its paths resolve
    to, [file_of path].  What the operating system, [pathlib], the
    text-generation service and [repr] answer is not decided by this
    module; every such answer is a field of [Env], and every statement
    below holds for all of them. *)

Abbreviation FS := (gmap pystr pybytes).

Class Env : Type := {
  (** [str(TMP_DIR / name)] *)
  tmp_path : pystr -> pystr;
  (** The file a path names, as [open] resolves it.  Nothing in this module
      creates or removes a directory or a link, so the resolution is the
      same throughout a call. *)
  file_of : pystr -> pystr;
  (** [open(path, "wb")]: [None] when the file is opened (and truncated),
      otherwise the exception raised. *)
  open_wb : FS -> pystr -> option exn;
  (** [f.write(data)] and the close at the end of [with]: [None] on
      success, otherwise the exception and the bytes that reached the file. *)
  write_wb : FS -> pystr -> pybytes -> option (exn * pybytes);
  (** [open(path, "r", ...)] on a missing path. *)
  no_such_file : pystr -> exn;
  (** [open(path, "r", ...)] and the reads that follow failing on an
      existing path (permissions, a directory, a device error). *)
  read_error : FS -> pystr -> option exn;
  (** [genai.get_model(name)]: truthy, falsy, or raising. *)
  get_model : pystr -> result bool;
  (** [model.generate_content(prompt).text]: a string, [None], or raising. *)
  generate_content : pystr -> pystr -> result (option pystr);
  (** [repr] of a list of strings, as an f-string renders [{checks or []}]. *)
  repr_list : list pystr -> pystr
}.

(** ** AttachmentDecoder *)

(** [base64.b64decode(s)] with its default [validate=False], after CPython's
    [binascii.a2b_base64] in non-strict mode. *)

Definition table_a2b_base64 (c : N) : option N :=
  (if (65 <=? c) && (c <=? 90) then Some (c - 65)
   else if (97 <=? c) && (c <=? 122) then Some (c - 71)
   else if (48 <=? c) && (c <=? 57) then Some (c + 4)
   else if c =? 43 then Some 62
   else if c =? 47 then Some 63
   else None)%N.

Definition BASE64_PAD : N := 61%N.

Fixpoint a2b_base64_loop (ascii_data : pybytes) (quad_pos : nat)
    (leftchar : N) (pads : nat) (bin_data : pybytes) : result pybytes :=
  match ascii_data with
  | [] =>
      match quad_pos with
      | O => Ok bin_data
      | 1%nat =>
          Raise (BinasciiError
            (py "Invalid base64-encoded string: number of data characters ("
             ++ str_of_int (len bin_data / 3 * 4 + 1)
             ++ py ") cannot be 1 more than a multiple of 4"))
      | _ => Raise (BinasciiError (py "Incorrect padding"))
      end
  | this_ch :: rest =>
      if N.eqb this_ch BASE64_PAD then
        if (2 <=? quad_pos)%nat then
          if (4 <=? quad_pos + S pads)%nat then Ok bin_data
          else a2b_base64_loop rest quad_pos leftchar (S pads) bin_data
        else a2b_base64_loop rest quad_pos leftchar pads bin_data
      else
        match table_a2b_base64 this_ch with
        | None => a2b_base64_loop rest quad_pos leftchar pads bin_data
        | Some v =>
            match quad_pos with
            | O => a2b_base64_loop rest 1 v 0 bin_data
            | 1%nat =>
                a2b_base64_loop rest 2 (N.land v 15) 0
                  (bin_data ++
                   [N.land (N.lor (N.shiftl leftchar 2) (N.shiftr v 4)) 255])
            | 2%nat =>
                a2b_base64_loop rest 3 (N.land v 3) 0
                  (bin_data ++
                   [N.land (N.lor (N.shiftl leftchar 4) (N.shiftr v 2)) 255])
            | _ =>
                a2b_base64_loop rest 0 0 0
                  (bin_data ++
                   [N.land (N.lor (N.shiftl leftchar 6) v) 255])
            end
        end
  end.

Definition a2b_base64 (data : pybytes) : result pybytes :=
  a2b_base64_loop data 0 0 0 [].

(** A [str] argument is first encoded as ASCII. *)
Definition b64decode (s : pystr) : result pybytes :=
  if forallb (fun c => (c <? 128)%N) s then a2b_base64 s
  else Raise (ValueError
                (py "string argument should contain only ASCII characters")).

(** The value under [url] in an input dictionary.  The code calls a string
    method on it before the [try], so what is not a string matters: [None]
    (a JSON null), or a value of another type (a number, a boolean, a list,
    a dictionary), given by the name of its type. *)
Inductive pyvalue : Type :=
| PyStr (s : pystr)
| PyNone
| PyOther (type_name : pystr).

(** [type(v).__name__] *)
Definition type_name (v : pyvalue) : pystr :=
  match v with
  | PyStr _ => py "str"
  | PyNone => py "NoneType"
  | PyOther t => t
  end.

(** What looking up the string method [attr] on [v] raises when [v] is not
    a string. *)
Definition no_attribute (v : pyvalue) (attr : pystr) : exn :=
  AttributeError (py "'" ++ type_name v ++ py "' object has no attribute '"
                  ++ attr ++ py "'").

(** An input dictionary: [None] is a key that is absent (for [name], also a
    null value: [att.get("name") or "attachment"] treats both alike; for
    [url] a null value is [Some PyNone], which [att.get("url", "")]
    returns as it is). *)
Record attachment : Type := {
  att_name : option pystr;
  att_url : option pyvalue
}.

(** A record of the list [decode_attachments] returns. *)
Module Saved.
Record t : Type := {
  name : pystr;
  path : pystr;
  mime : pystr;
  size : Z
}.
End Saved.

Section WithEnv.
Context `{Env}.

(** [with open(path, "wb") as f: f.write(data)] *)
Definition write_file (fs : FS) (path : pystr) (data : pybytes)
  : FS * result unit :=
  match open_wb fs path with
  | Some e => (fs, Raise e)
  | None =>
      let file := file_of path in
      let fs1 := <[file := []]> fs in
      match write_wb fs1 path data with
      | Some (e, partial) => (<[file := partial]> fs, Raise e)
      | None => (<[file := data]> fs, Ok ())
      end
  end.

(** [x or default] for a string that may be absent. *)
Definition str_or (x : option pystr) (default : pystr) : pystr :=
  match x with
  | Some (c :: s) => c :: s
  | _ => default
  end.

(** The truth value of a string that may be absent. *)
Definition truthy (x : option pystr) : bool :=
  match x with
  | Some (_ :: _) => true
  | _ => false
  end.

(** The body of the [try] in [decode_attachments]. *)
Definition decode_try (fs : FS) (name url : pystr)
  : FS * result Saved.t :=
  match split_max url (py ",") 1 with
  | [header; b64data] =>
      match split header (py ";") with
      | [] => (fs, Raise (IndexError (py "list index out of range")))
      | first :: _ =>
          let mime := replace first (py "data:") [] in
          match b64decode b64data with
          | Raise e => (fs, Raise e)
          | Ok data =>
              let path := tmp_path name in
              match write_file fs path data with
              | (fs', Raise e) => (fs', Raise e)
              | (fs', Ok _) =>
                  (fs', Ok {| Saved.name := name; Saved.path := path;
                              Saved.mime := mime; Saved.size := len data |})
              end
          end
      end
  | parts =>
      (fs, Raise (ValueError
                    (py "not enough values to unpack (expected 2, got "
                     ++ str_of_int (Z.of_nat (length parts)) ++ py ")")))
  end.

(** One turn of the [for] loop: the records appended to [saved] (none or
    one), or the exception that leaves the loop.  [url.startswith] is
    called before the [try]: on a [url] that is not a string it raises
    [AttributeError], which nothing catches. *)
Definition decode_one (fs : FS) (att : attachment)
  : FS * result (list Saved.t) :=
  let name := str_or (att_name att) (py "attachment") in
  let url := default (PyStr []) (att_url att) in
  match url with
  | PyStr url =>
      if negb (startswith url (py "data:")) then (fs, Ok [])
      else
        let '(fs', r) := decode_try fs name url in
        (fs', try_except (s ← r; Ok [s]) (fun e => Ok []))
  | _ => (fs, Raise (no_attribute url (py "startswith")))
  end.

Fixpoint decode_loop (fs : FS) (atts : list attachment) (saved : list Saved.t)
  : FS * result (list Saved.t) :=
  match atts with
  | [] => (fs, Ok saved)
  | att :: rest =>
      match decode_one fs att with
      | (fs', Ok new) => decode_loop fs' rest (saved ++ new)
      | (fs', Raise e) => (fs', Raise e)
      end
  end.

Definition decode_attachments (fs : FS) (attachments : option (list attachment))
  : FS * result (list Saved.t) :=
  decode_loop fs (default [] attachments) [].

(** ** AttachmentSummarizer *)

(** The text layer of [open(p, "r", encoding="utf-8", errors="ignore")]. *)

Definition is_cont (b : N) : bool := ((128 <=? b) && (b <=? 191))%N.
Definition in_range (lo hi b : N) : bool := ((lo <=? b) && (b <=? hi))%N.

(** The range of the second byte that a lead byte of a multi-byte sequence
    admits (well-formed UTF-8: no overlong forms, no surrogates, nothing
    above U+10FFFF). *)
Definition second_ok (b0 b1 : N) : bool :=
  (if b0 =? 224 then in_range 160 191 b1
   else if b0 =? 237 then in_range 128 159 b1
   else if b0 =? 240 then in_range 144 191 b1
   else if b0 =? 244 then in_range 128 143 b1
   else is_cont b1)%N.

(** UTF-8 decoding with [errors="ignore"]: a byte that does not start a
    well-formed sequence is dropped and decoding resumes at the next byte
    (the bytes CPython skips after it are continuation bytes, which are
    dropped one by one here: the decoded text is the same). *)
Fixpoint utf8_decode_ignore (bs : pybytes) : pystr :=
  match bs with
  | [] => []
  | b0 :: r0 =>
      if (b0 <? 128)%N then b0 :: utf8_decode_ignore r0
      else if in_range 194 223 b0 then
        match r0 with
        | b1 :: r1 =>
            if is_cont b1
            then (N.lor (N.shiftl (N.land b0 31) 6) (N.land b1 63))
                   :: utf8_decode_ignore r1
            else utf8_decode_ignore r0
        | [] => utf8_decode_ignore r0
        end
      else if in_range 224 239 b0 then
        match r0 with
        | b1 :: (b2 :: r2) =>
            if second_ok b0 b1 && is_cont b2
            then (N.lor (N.shiftl (N.land b0 15) 12)
                    (N.lor (N.shiftl (N.land b1 63) 6) (N.land b2 63)))
                   :: utf8_decode_ignore r2
            else utf8_decode_ignore r0
        | _ => utf8_decode_ignore r0
        end
      else if in_range 240 244 b0 then
        match r0 with
        | b1 :: (b2 :: (b3 :: r3)) =>
            if second_ok b0 b1 && is_cont b2 && is_cont b3
            then (N.lor (N.shiftl (N.land b0 7) 18)
                    (N.lor (N.shiftl (N.land b1 63) 12)
                       (N.lor (N.shiftl (N.land b2 63) 6) (N.land b3 63))))
                   :: utf8_decode_ignore r3
            else utf8_decode_ignore r0
        | _ => utf8_decode_ignore r0
        end
      else utf8_decode_ignore r0
  end.

(** Universal newlines (the default [newline=None]): CR LF and a lone CR are
    read as LF. *)
Fixpoint universal_newlines (s : pystr) : pystr :=
  match s with
  | [] => []
  | c :: r =>
      if N.eqb c 13 then
        10%N :: match r with
                | d :: r' => if N.eqb d 10 then universal_newlines r'
                             else universal_newlines r
                | [] => universal_newlines r
                end
      else c :: universal_newlines r
  end.

(** A text file open for reading: the characters not read yet. *)
Definition textfile := pystr.

(** [open(p, "r", encoding="utf-8", errors="ignore")] *)
Definition open_r (fs : FS) (p : pystr) : result textfile :=
  match fs !! file_of p with
  | None => Raise (no_such_file p)
  | Some bytes =>
      match read_error fs p with
      | Some e => Raise e
      | None => Ok (universal_newlines (utf8_decode_ignore bytes))
      end
  end.

(** [f.readline()]: up to and including the next line feed. *)
Fixpoint readline (f : textfile) : pystr * textfile :=
  match f with
  | [] => ([], [])
  | c :: r =>
      if N.eqb c 10 then ([c], r)
      else let '(l, r') := readline r in (c :: l, r')
  end.

(** [next(f)] *)
Definition next (f : textfile) : result (pystr * textfile) :=
  match f with
  | [] => Raise StopIteration
  | _ => Ok (readline f)
  end.

(** [f.read(n)] for [n >= 0] *)
Definition read (f : textfile) (n : Z) : pystr * textfile :=
  (take (Z.to_nat n) f, drop (Z.to_nat n) f).

(** [[next(f).strip() for _ in range(n)]] *)
Fixpoint next_stripped (n : nat) (f : textfile) : result (list pystr) :=
  match n with
  | O => Ok []
  | S n' =>
      lf ← next f;
      rest ← next_stripped n' (snd lf);
      Ok (strip (fst lf) :: rest)
  end.

(** The body of the [try] in [summarize_attachment_meta]: the entry
    appended to [summaries]. *)
Definition summarize_try (fs : FS) (s : Saved.t) : result pystr :=
  let nm := Saved.name s in
  let p := Saved.path s in
  let mime := Saved.mime s in
  if startswith mime (py "text")
     || existsb (endswith nm) [py ".md"; py ".txt"; py ".json"; py ".csv"]
  then
    f ← open_r fs p;
    preview ←
      (if endswith nm (py ".csv") then
         lines ← next_stripped 3 f;
         Ok (join NL lines)
       else
         let data := fst (read f 1000) in
         Ok (slice (replace data NL NL) 0 1000));
    Ok (py "- " ++ nm ++ py " (" ++ mime ++ py "): preview: " ++ preview)
  else
    Ok (py "- " ++ nm ++ py " (" ++ mime ++ py "): "
        ++ str_of_int (Saved.size s) ++ py " bytes").

(** One turn of the [for] loop of [summarize_attachment_meta]. *)
Definition summarize_one (fs : FS) (s : Saved.t) : result pystr :=
  try_except (summarize_try fs s)
    (fun e =>
       Ok (py "- " ++ Saved.name s ++ py " (" ++ Saved.mime s
           ++ py "): (could not read preview: " ++ str_of_exn e ++ py ")")).

Fixpoint summarize_loop (fs : FS) (saved : list Saved.t)
    (summaries : list pystr) : result (list pystr) :=
  match saved with
  | [] => Ok summaries
  | s :: rest =>
      line ← summarize_one fs s;
      summarize_loop fs rest (summaries ++ [line])
  end.

Definition summarize_attachment_meta (fs : FS) (saved : list Saved.t)
  : result pystr :=
  summaries ← summarize_loop fs saved [];
  Ok (join NL summaries).

(** ** FallbackDocGenerator *)

Definition generate_readme_fallback (brief : pystr)
    (checks : option (list pystr)) (attachments_meta : option pystr)
    (round_num : Z) : pystr :=
  let checks_text := join NL (default [] checks) in
  let att_text := str_or attachments_meta [] in
  py "# Auto-generated README (Round " ++ str_of_int round_num ++ py ")

**Project brief:** " ++ brief ++ py "

**Attachments:**
" ++ att_text ++ py "

**Checks to meet:**
" ++ checks_text ++ py "

## Setup
1. Open `index.html` in a browser.
2. No build steps required.

## Notes
This README was generated as a fallback because the LLM did not return an explicit README.
".

(** ** GenerationOrchestrator *)

Definition context_note (round_num : Z) (prev_readme : option pystr) : pystr :=
  if (round_num =? 2) && truthy prev_readme
  then py "
### Previous README.md:
" ++ default [] prev_readme ++ py "

Revise and enhance this project according to the new brief below.
"
  else [].

Definition user_prompt (brief : pystr) (checks : option (list pystr))
    (attachments_meta : pystr) (round_num : Z) (prev_readme : option pystr)
  : pystr :=
  py "
You are a professional web developer assistant.

### Round
" ++ str_of_int round_num ++ py "

### Task
" ++ brief ++ py "

" ++ context_note round_num prev_readme ++ py "

### Attachments (if any)
" ++ attachments_meta ++ py "

### Evaluation checks
" ++ repr_list (default [] checks) ++ py "

### Output format rules:
1. Produce a complete web app (HTML/JS/CSS inline if needed) satisfying the brief.
2. Your output MUST contain two markdown code blocks ONLY: one for `index.html` and one for `README.md`.
3. The `README.md` block must start on a new line immediately after the `index.html` block.
4. The `README.md` must include: Overview, Setup, and Usage sections. If Round 2, describe improvements.
5. Example format:
   ```html
   <!DOCTYPE html>
   ...
   ```
   ```markdown
   # Project README
   ...
   ```
6. Do not include any other text or commentary outside of these two code blocks.
".

(** The text the [except] branch of [generate_app_code] substitutes. *)
Definition fallback_text (brief : pystr) (checks : option (list pystr))
    (attachments_meta : pystr) (round_num : Z) : pystr :=
  py "
```html
<html>
  <head><title>Fallback App</title></head>
  <body>
    <h1>Hello (fallback)</h1>
    <p>This app was generated as a fallback because the Gemini API failed. Brief: " ++ brief ++ py "</p>
  </body>
</html>
```
```markdown
" ++ generate_readme_fallback brief checks (Some attachments_meta) round_num
  ++ py "
```
".

(** The [try] of [generate_app_code]: the text the service returned. *)
Definition call_gemini (prompt : pystr) : result pystr :=
  available ← get_model (py "models/gemini-2.5-flash-preview-09-2025");
  if negb available then
    Raise (GenericException (py "Gemini model not available."))
  else
    text ← generate_content (py "gemini-2.5-flash-preview-09-2025") prompt;
    Ok (str_or text []).

(** Lines 186 to 195 of [generate_app_code], the response extractor: the
    source text and the documentation text taken from the response. *)
Definition extract_parts (text brief : pystr) (checks : option (list pystr))
    (attachments_meta : pystr) (round_num : Z) : result (pystr * pystr) :=
  let parts := split text FENCE in
  if 5 <=? len parts then
    match parts with
    | _ :: p1 :: _ :: p3 :: _ =>
        code_part ← _strip_code_block (FENCE ++ p1 ++ FENCE);
        readme_part ← _strip_code_block (FENCE ++ p3 ++ FENCE);
        Ok (code_part, readme_part)
    | _ => Raise (IndexError (py "list index out of range"))
    end
  else
    code_part ← _strip_code_block text;
    Ok (code_part,
        generate_readme_fallback brief checks (Some attachments_meta)
          round_num).

(** The value [generate_app_code] returns. *)
Record generation_result : Type := {
  files : gmap pystr pystr;
  attachments : list Saved.t
}.

Definition generate_app_code (fs : FS) (brief : pystr)
    (attachments : option (list attachment)) (checks : option (list pystr))
    (round_num : Z) (prev_readme : option pystr)
  : FS * result generation_result :=
  let '(fs', r) := decode_attachments fs (Some (default [] attachments)) in
  (fs',
   saved ← r;
   attachments_meta ← summarize_attachment_meta fs' saved;
   let prompt :=
     user_prompt brief checks attachments_meta round_num prev_readme in
   text ← try_except (call_gemini prompt)
            (fun e => Ok (fallback_text brief checks attachments_meta
                            round_num));
   parts ← extract_parts text brief checks attachments_meta round_num;
   Ok {| files := {[ py "index.html" := fst parts;
                     py "README.md" := snd parts ]};
         attachments := saved |}).

End WithEnv.

(** ** A concrete environment

    A scratch directory on a file system without links, in which every
    write and read succeeds, and a service that answers [reply] to every
    prompt. *)

(** The components of a path that [pathlib] and the system keep: empty
    components and [.] are dropped. *)
Definition path_components (p : pystr) : list pystr :=
  List.filter
    (fun c => negb (bool_decide (c = []) || bool_decide (c = py ".")))
    (split p (py "/")).

(** [str(PurePosixPath(base) / name)] for a normalised absolute [base]: an
    absolute [name] replaces [base]; two leading slashes, and only two, are
    kept; [..] is kept. *)
Definition pathlib_join (base name : pystr) : pystr :=
  let comps := path_components name in
  if startswith name (py "/") then
    (if startswith name (py "//") && negb (startswith name (py "///"))
     then py "//" else py "/")
    ++ join (py "/") comps
  else if bool_decide (comps = []) then base
  else base ++ py "/" ++ join (py "/") comps.

(** The file an absolute path names when no component is a link: [..]
    removes the component before it, and stays at the root. *)
Fixpoint resolve_dots (above comps : list pystr) : list pystr :=
  match comps with
  | [] => rev above
  | c :: cs =>
      if bool_decide (c = py "..") then resolve_dots (tail above) cs
      else resolve_dots (c :: above) cs
  end.

Definition normpath (p : pystr) : pystr :=
  py "/" ++ join (py "/") (resolve_dots [] (path_components p)).

(** [repr] of a string, for code points up to 127 (the others are kept as
    they are, as [repr] keeps the printable ones): the quote is double when
    the string holds a single quote and no double one. *)
Definition hex_digit (n : N) : N :=
  (if n <? 10 then 48 + n else 87 + n)%N.

Definition repr_char (q c : N) : pystr :=
  (if c =? 92 then py "\\"
   else if c =? q then [92; q]
   else if c =? 10 then py "\n"
   else if c =? 13 then py "\r"
   else if c =? 9 then py "\t"
   else if (c <? 32) || (c =? 127)
        then py "\x" ++ [hex_digit (c / 16); hex_digit (c mod 16)]
   else [c])%N.

Definition repr_str (s : pystr) : pystr :=
  let q := if existsb (N.eqb 39) s && negb (existsb (N.eqb 34) s)
           then 34%N else 39%N in
  [q] ++ concat (map (repr_char q) s) ++ [q].

Definition demo_env (reply : result (option pystr)) : Env := {|
  tmp_path name := pathlib_join (py "/tmp/llm_attachments") name;
  file_of := normpath;
  open_wb _ _ := None;
  write_wb _ _ _ := None;
  no_such_file p :=
    OSError (py "[Errno 2] No such file or directory: '" ++ p ++ py "'");
  read_error _ _ := None;
  get_model _ := Ok true;
  generate_content _ _ := reply;
  repr_list l := py "[" ++ join (py ", ") (map repr_str l) ++ py "]"
|}.

(** ** Fences as a scanner

    [ticks k s] scans [s] with [k] backticks just read: [None] when three in
    a row are met (a fence), otherwise the number of backticks [s] ends
    with.  It is used to state and to check that a text carries no fence. *)

Definition TICK : N := 96%N.

Fixpoint ticks (k : nat) (s : pystr) : option nat :=
  match s with
  | [] => Some k
  | c :: r =>
      if N.eqb TICK c then
        (if (k <? 2)%nat then ticks (S k) r else None)
      else ticks 0 r
  end.

(** [s] holds no fence and does not end with a backtick: a fence written
    right after [s] starts exactly where [s] ends. *)
Definition clean (s : pystr) : Prop := ticks 0 s = Some 0%nat.

(** ** Base64, as a valid payload is written

    The standard encoding (RFC 4648) with padding; [b64decode] is checked
    against it below. *)

Definition table_b2a_base64 (v : N) : N :=
  (if v <? 26 then v + 65
   else if v <? 52 then v + 71
   else if v <? 62 then v - 4
   else if v =? 62 then 43
   else 47)%N.

Fixpoint b64encode (data : pybytes) : pystr :=
  match data with
  | [] => []
  | [b0] =>
      [table_b2a_base64 (N.shiftr b0 2);
       table_b2a_base64 (N.shiftl (N.land b0 3) 4);
       BASE64_PAD; BASE64_PAD]
  | [b0; b1] =>
      [table_b2a_base64 (N.shiftr b0 2);
       table_b2a_base64 (N.lor (N.shiftl (N.land b0 3) 4) (N.shiftr b1 4));
       table_b2a_base64 (N.shiftl (N.land b1 15) 2);
       BASE64_PAD]
  | b0 :: b1 :: b2 :: rest =>
      table_b2a_base64 (N.shiftr b0 2)
      :: table_b2a_base64 (N.lor (N.shiftl (N.land b0 3) 4) (N.shiftr b1 4))
      :: table_b2a_base64 (N.lor (N.shiftl (N.land b1 15) 2) (N.shiftr b2 6))
      :: table_b2a_base64 (N.land b2 63)
      :: b64encode rest
  end.

(** The octets. *)
Definition octets : list N := map N.of_nat (seq 0 256).

(** What the decoder needs of an encoded sextet, of one octet and of two
    neighbouring octets; each is checked on all its arguments below. *)
Definition sextet_ok (v : N) : bool :=
  negb (N.eqb (table_b2a_base64 v) BASE64_PAD)
  && bool_decide (table_a2b_base64 (table_b2a_base64 v) = Some v)
  && (table_b2a_base64 v <? 128)%N.

Definition octet_ok (a : N) : bool :=
  ((N.shiftr a 2 <? 64) && (N.land a 63 <? 64)
   && (N.land (N.lor (N.shiftl (N.shiftr a 2) 2) (N.land a 3)) 255 =? a)
   && (N.land (N.lor (N.shiftl (N.shiftr a 4) 4) (N.land a 15)) 255 =? a)
   && (N.land (N.lor (N.shiftl (N.shiftr a 6) 6) (N.land a 63)) 255 =? a))%N.

Definition pair_ok (a b : N) : bool :=
  let v1 := N.lor (N.shiftl (N.land a 3) 4) (N.shiftr b 4) in
  let v2 := N.lor (N.shiftl (N.land a 15) 2) (N.shiftr b 6) in
  ((v1 <? 64) && (N.shiftr v1 4 =? N.land a 3)
   && (N.land v1 15 =? N.shiftr b 4)
   && (v2 <? 64) && (N.shiftr v2 2 =? N.land a 15)
   && (N.land v2 3 =? N.shiftr b 6))%N.

(** The characters [a2b_base64] reads: the alphabet and the padding. *)
Definition b64_significant (c : N) : bool :=
  N.eqb c BASE64_PAD || bool_decide (is_Some (table_a2b_base64 c)).


(** ** The inputs of the decoder, as its loop reads them *)

(** [att.get("name") or "attachment"] *)
Definition input_name (att : attachment) : pystr :=
  str_or (att_name att) (py "attachment").

(** The url is a string, or the key is absent: the inputs on which
    [url.startswith] can be called. *)
Definition str_url (att : attachment) : bool :=
  match att_url att with
  | Some (PyStr _) | None => true
  | Some _ => false
  end.

(** [att.get("url", "")] when it is a string (an absent key reads as the
    empty string).  For a value that is not a string the loop raises before
    it reads the url; the empty string stands in for it. *)
Definition input_url (att : attachment) : pystr :=
  match att_url att with
  | Some (PyStr url) => url
  | _ => []
  end.

(** [url.startswith("data:")] *)
Definition is_data (att : attachment) : bool :=
  startswith (input_url att) (py "data:").

(** The inputs the loop tries to decode, in their order. *)
Definition data_inputs (atts : list attachment) : list attachment :=
  filter (fun att => is_data att = true) atts.

(** ** Valid data URIs

    In [data:<mime>;base64,<payload>] the media type is a type, a slash and
    a subtype, made of the token characters of RFC 2045: printable ASCII
    without the space and the specials.  The slash is admitted anywhere. *)

Definition mime_char (c : N) : bool :=
  ((33 <=? c) && (c <=? 126)
   && negb (existsb (N.eqb c)
              [40; 41; 60; 62; 64; 44; 59; 58; 92; 34; 91; 93; 63; 61]))%N.

Definition valid_mime (mime : pystr) : bool := forallb mime_char mime.

Definition data_uri (mime payload : pystr) : pystr :=
  py "data:" ++ mime ++ py ";base64," ++ payload.

(** ** The preview of a CSV file, in the spec's words

    The first [n] lines of [text] verbatim, joined by a line feed. *)

Definition first_lines_verbatim (n : nat) (text : pystr) : pystr :=
  join NL (take n (split text NL)).

(** The entry of the summary with a preview, and the entry for a read that
    failed. *)
Definition preview_entry (nm mime preview : pystr) : pystr :=
  py "- " ++ nm ++ py " (" ++ mime ++ py "): preview: " ++ preview.

Definition error_entry (nm mime : pystr) (e : exn) : pystr :=
  py "- " ++ nm ++ py " (" ++ mime ++ py "): (could not read preview: "
  ++ str_of_exn e ++ py ")".

(** The attachments [summarize_attachment_meta] previews. *)
Definition previewed (s : Saved.t) : bool :=
  startswith (Saved.mime s) (py "text")
  || existsb (endswith (Saved.name s))
       [py ".md"; py ".txt"; py ".json"; py ".csv"].

(** The lines of a text file as iterating over it yields them: each with
    the line feed that ends it, the last one possibly without. *)
Fixpoint file_lines (f : textfile) : list pystr :=
  match f with
  | [] => []
  | c :: r =>
      if N.eqb c 10 then [c] :: file_lines r
      else match file_lines r with
           | [] => [[c]]
           | l :: ls => (c :: l) :: ls
           end
  end.

(** ** The result of the orchestrator, as a caller reads it *)



(** The two fixed sections that close the fallback README. *)
Definition SETUP_AND_NOTES : pystr := py "## Setup
1. Open `index.html` in a browser.
2. No build steps required.

## Notes
This README was generated as a fallback because the LLM did not return an explicit README.
".

(** The fixed text around the brief in the fallback application. *)
Definition FALLBACK_HTML_HEAD : pystr := py "<html>
  <head><title>Fallback App</title></head>
  <body>
    <h1>Hello (fallback)</h1>
    <p>This app was generated as a fallback because the Gemini API failed. Brief: ".

Definition FALLBACK_HTML_TAIL : pystr := py "</p>
  </body>
</html>
".

(** ** Well-formed responses

    A fenced block is an opening fence, a language tag on the same line
    (possibly empty), a line feed, the inner content, and a closing fence.
    The tag holds no line feed and no backtick; the content holds no fence
    and does not end with a backtick, so the closing fence is where the
    content ends. *)

Definition fence_free (s : pystr) : bool := negb (contains s FENCE).

Definition is_tag (tag : pystr) : bool :=
  forallb (fun c => negb (N.eqb c 10) && negb (N.eqb c TICK)) tag.

Definition is_content (s : pystr) : bool :=
  fence_free s && negb (endswith s [TICK]).

Definition fenced (tag body : pystr) : pystr :=
  FENCE ++ tag ++ NL ++ body ++ FENCE.

(** [text] is exactly two well-formed fenced blocks, with [pre] before the
    first, [mid] between them and [post] after the second. *)
Definition two_blocks (text pre tag1 body1 mid tag2 body2 post : pystr)
  : Prop :=
  text = pre ++ fenced tag1 body1 ++ mid ++ fenced tag2 body2 ++ post
  /\ is_content pre = true /\ is_content mid = true
  /\ fence_free post = true
  /\ is_tag tag1 = true /\ is_content body1 = true
  /\ is_tag tag2 = true /\ is_content body2 = true.

(** * Properties of the string operations *)

Lemma bind_Ok {A B} (a : A) (k : A -> result B) : (Ok a ≫= k) = k a.
Proof. reflexivity. Qed.

Section Strings.
Implicit Types s p sub a b r : pystr.
Local Arguments N.eqb : simpl never.
Local Arguments len : simpl never.

Lemma len_app {A} (x y : list A) : len (x ++ y) = len x + len y.
Proof. unfold len. rewrite length_app. lia. Qed.

Lemma len_nonneg {A} (x : list A) : 0 <= len x.
Proof. unfold len. lia. Qed.

Lemma startswith_app p r : startswith (p ++ r) p = true.
Proof.
  induction p as [|c p IH]; simpl; [done|].
  by rewrite N.eqb_refl, IH.
Qed.

Lemma startswith_refl s : startswith s s = true.
Proof. induction s as [|c s IH]; simpl; [done|]. by rewrite N.eqb_refl. Qed.

Lemma startswith_inv s p : startswith s p = true -> exists r, s = p ++ r.
Proof.
  revert s. induction p as [|c p IH]; intros s Hs.
  - by exists s.
  - destruct s as [|d s]; simpl in Hs; [done|].
    apply andb_true_iff in Hs as [Hc Hs]. apply N.eqb_eq in Hc as ->.
    destruct (IH _ Hs) as [r ->]. by exists r.
Qed.

Lemma startswith_short s p :
  (length s < length p)%nat -> startswith s p = false.
Proof.
  intros Hl. destruct (startswith s p) eqn:E; [|done].
  apply startswith_inv in E as [r ->]. rewrite length_app in Hl. lia.
Qed.

Lemma find_at_unfold s sub i :
  find_at s sub i =
  if startswith s sub then i
  else match s with
       | [] => -1
       | _ :: s' => find_at s' sub (i + 1)
       end.
Proof. by destruct s. Qed.

(** [find] returns the first position at which [sub] occurs. *)
Lemma find_at_first a sub b i :
  (forall j, (j < length a)%nat ->
             startswith (drop j (a ++ sub ++ b)) sub = false) ->
  find_at (a ++ sub ++ b) sub i = i + len a.
Proof.
  revert i. induction a as [|c a IH]; intros i Hno.
  - rewrite find_at_unfold. simpl. rewrite startswith_app.
    unfold len. simpl. lia.
  - pose proof (Hno 0%nat ltac:(simpl; lia)) as H0. simpl in H0.
    rewrite find_at_unfold. simpl. rewrite H0.
    rewrite IH.
    + unfold len. simpl. lia.
    + intros j Hj. apply (Hno (S j)). simpl. lia.
Qed.

Lemma find_at_cases s sub i :
  (find_at s sub i = -1 /\ forall j, startswith (drop j s) sub = false) \/
  (exists a b, s = a ++ sub ++ b /\ find_at s sub i = i + len a /\
     forall j, (j < length a)%nat -> startswith (drop j s) sub = false).
Proof.
  revert i. induction s as [|c s IH]; intros i.
  - rewrite find_at_unfold. destruct (startswith [] sub) eqn:E.
    + right. apply startswith_inv in E as [r E]. exists [], r.
      split; [done|]. split; [unfold len; simpl; lia|]. simpl. lia.
    + left. split; [done|]. intros j. by rewrite drop_nil.
  - rewrite find_at_unfold. destruct (startswith (c :: s) sub) eqn:E.
    + right. apply startswith_inv in E as [r E]. exists [], r.
      split; [done|]. split; [unfold len; simpl; lia|]. simpl. lia.
    + destruct (IH (i + 1)) as [[Hf Hno]|(a & b & -> & Hf & Hno)].
      * left. split; [done|]. intros [|j]; [done|]. apply Hno.
      * right. exists (c :: a), b. split; [done|].
        split; [rewrite Hf; unfold len; simpl; lia|].
        intros [|j] Hj; [done|]. apply Hno. simpl in Hj. lia.
Qed.

Lemma find_at_range s sub i :
  find_at s sub i = -1 \/ (i <= find_at s sub i <= i + len s).
Proof.
  destruct (find_at_cases s sub i) as [[Hf _]|(a & b & -> & Hf & _)];
    [by left|right].
  rewrite Hf, !len_app. pose proof (len_nonneg a). pose proof (len_nonneg sub).
  pose proof (len_nonneg b). lia.
Qed.

Lemma contains_false_iff s sub :
  contains s sub = false <-> forall j, startswith (drop j s) sub = false.
Proof.
  unfold contains, find. split.
  - intros Hc j.
    destruct (find_at_cases s sub 0) as [[_ Hno]|(a & b & _ & Hf & _)];
      [done|].
    rewrite Hf in Hc. pose proof (len_nonneg a).
    apply negb_false_iff, Z.eqb_eq in Hc. lia.
  - intros Hno.
    destruct (find_at_cases s sub 0) as [[Hf _]|(a & b & -> & _ & _)].
    + by rewrite Hf.
    + specialize (Hno (length a)). rewrite drop_app_length in Hno.
      by rewrite startswith_app in Hno.
Qed.

Lemma contains_app a sub b : contains (a ++ sub ++ b) sub = true.
Proof.
  destruct (contains (a ++ sub ++ b) sub) eqn:E; [done|].
  rewrite contains_false_iff in E. specialize (E (length a)).
  rewrite drop_app_length in E. by rewrite startswith_app in E.
Qed.

(** [rfind] returns the last position: a string that ends with [sub] has it
    at [len - len sub]. *)
Lemma rfind_at_short s sub i :
  (length s < length sub)%nat -> rfind_at s sub i = -1.
Proof.
  revert i. induction s as [|c s IH]; intros i Hl.
  - simpl. destruct sub; [simpl in Hl; lia|done].
  - simpl. rewrite IH by (simpl in Hl; lia). simpl.
    by rewrite startswith_short.
Qed.

Lemma rfind_at_suffix a sub i :
  sub <> [] -> 0 <= i -> rfind_at (a ++ sub) sub i = i + len a.
Proof.
  intros Hsub. revert i. induction a as [|c a IH]; intros i Hi.
  - destruct sub as [|c sub]; [done|]. simpl.
    rewrite rfind_at_short by (simpl; lia). simpl.
    rewrite N.eqb_refl, startswith_refl. unfold len. simpl. lia.
  - simpl. rewrite IH by lia.
    destruct (i + 1 + len a =? -1) eqn:E.
    + apply Z.eqb_eq in E. pose proof (len_nonneg a). lia.
    + unfold len. simpl. lia.
Qed.


(** *** The fence scanner and [find] *)

Lemma FENCE_eq : FENCE = [TICK; TICK; TICK].
Proof. reflexivity. Qed.

Lemma ticks_app k x y :
  ticks k (x ++ y) = ticks k x ≫= fun k' => ticks k' y.
Proof.
  revert k. induction x as [|c x IH]; intros k; simpl; [done|].
  destruct (N.eqb TICK c); [|apply IH].
  destruct (k <? 2)%nat; [apply IH|done].
Qed.

Lemma ticks_mono k s m :
  ticks (S k) s = Some m -> exists m', ticks k s = Some m' /\ (m' <= m)%nat.
Proof.
  revert k m. induction s as [|c s IH]; intros k m; simpl.
  - intros [= <-]. exists k. split; [done|lia].
  - destruct (N.eqb TICK c); [|intros Hm; exists m; split; [done|lia]].
    destruct (S k <? 2)%nat eqn:E; [|done].
    apply Nat.ltb_lt in E. assert (k = 0%nat) as -> by lia. simpl.
    apply IH.
Qed.

Lemma ticks_no_tick k s :
  Forall (fun c => c <> TICK) s -> s <> [] -> ticks k s = Some 0%nat.
Proof.
  intros Hs. revert k. induction Hs as [|c s Hc Hs IH]; intros k Hne; [done|].
  simpl. destruct (N.eqb_spec TICK c) as [E|_]; [by subst|].
  destruct s as [|d s]; [done|]. by apply IH.
Qed.

Lemma clean_tail c s : clean (c :: s) -> clean s.
Proof.
  unfold clean. simpl. destruct (N.eqb TICK c); [|done]. simpl.
  intros Hm. apply ticks_mono in Hm as (m' & Hm & Hle).
  by replace m' with 0%nat in Hm by lia.
Qed.

Lemma clean_drop j s : clean s -> clean (drop j s).
Proof.
  revert s. induction j as [|j IH]; intros s Hs; [done|].
  destruct s as [|c s]; [done|]. simpl. apply IH. by eapply clean_tail.
Qed.

Lemma clean_head a b :
  clean a -> a <> [] -> startswith (a ++ FENCE ++ b) FENCE = false.
Proof.
  unfold clean. rewrite FENCE_eq. intros Ha Hne.
  destruct a as [|c1 a]; [done|]. simpl in *.
  destruct (N.eqb TICK c1); [simpl in *|done].
  destruct a as [|c2 a]; [done|]. simpl in *.
  destruct (N.eqb TICK c2); [simpl in *|done].
  destruct a as [|c3 a]; [done|]. simpl in *.
  by destruct (N.eqb TICK c3).
Qed.

(** A fence written after a clean text is the first one. *)
Lemma clean_find a b : clean a -> find (a ++ FENCE ++ b) FENCE = len a.
Proof.
  intros Ha. unfold find. rewrite find_at_first; [lia|].
  intros j Hj. rewrite drop_app_le by lia.
  apply clean_head; [by apply clean_drop|].
  intros E. apply (f_equal length) in E. rewrite length_drop in E.
  simpl in E. lia.
Qed.

Lemma no_fence_ticks k s :
  (k <= 2)%nat ->
  (forall j, startswith (drop j (replicate k TICK ++ s)) FENCE = false) ->
  is_Some (ticks k s).
Proof.
  revert k. induction s as [|c s IH]; intros k Hk Hno; simpl; [done|].
  destruct (N.eqb_spec TICK c) as [<-|Hc].
  - destruct (k <? 2)%nat eqn:E.
    + apply Nat.ltb_lt in E. apply IH; [lia|]. intros j.
      specialize (Hno j). by rewrite replicate_S_end, <- app_assoc.
    + apply Nat.ltb_ge in E. assert (k = 2%nat) as -> by lia.
      specialize (Hno 0%nat). by vm_compute in Hno.
  - apply IH; [lia|]. intros j. specialize (Hno (k + 1 + j)%nat).
    rewrite drop_app_ge in Hno by (rewrite length_replicate; lia).
    rewrite length_replicate in Hno.
    by replace (k + 1 + j - k)%nat with (S j) in Hno by lia.
Qed.

(** A text without a fence that does not end with a backtick is clean. *)
Lemma no_fence_clean s :
  contains s FENCE = false -> endswith s [TICK] = false -> clean s.
Proof.
  intros Hc He. rewrite contains_false_iff in Hc.
  destruct (no_fence_ticks 0 s) as [m Hm]; [lia|done|].
  unfold clean. rewrite Hm. f_equal.
  destruct s as [|c s _] using rev_ind; [by injection Hm|].
  unfold endswith in He. rewrite rev_app_distr in He. simpl in He.
  rewrite ticks_app in Hm. destruct (ticks 0 s) as [k|]; [simpl in Hm|done].
  destruct (N.eqb TICK c); [done|]. by injection Hm.
Qed.

(** *** [split] and [join] *)

Lemma split_fuel_nonempty n s sep m : split_fuel n s sep m <> [].
Proof.
  destruct n; simpl; [done|].
  destruct (m =? 0); [done|]. by destruct (find s sep =? -1).
Qed.

Lemma join_cons sep x l : l <> [] -> join sep (x :: l) = x ++ sep ++ join sep l.
Proof. by destruct l. Qed.

(** Joining the pieces of a split with the separator gives the text back:
    [s.replace(x, x)] is [s]. *)
Lemma join_split_fuel n s sep m : join sep (split_fuel n s sep m) = s.
Proof.
  revert s m. induction n as [|n IH]; intros s m; simpl; [done|].
  destruct (m =? 0); [done|].
  destruct (find s sep =? -1) eqn:E; [done|].
  rewrite join_cons by apply split_fuel_nonempty. rewrite IH.
  unfold find in *.
  destruct (find_at_cases s sep 0) as [[Hf _]|(a & b & -> & Hf & _)];
    [by rewrite Hf in E|].
  rewrite Hf. unfold len. rewrite Z.add_0_l, Nat2Z.id.
  rewrite take_app_length, drop_app_add', drop_app_length; done.
Qed.

Lemma replace_same s sep : replace s sep sep = s.
Proof. apply join_split_fuel. Qed.

Lemma split_fuel_enough n n' s sep m :
  sep <> [] -> (length s <= n)%nat -> (length s <= n')%nat ->
  split_fuel n s sep m = split_fuel n' s sep m.
Proof.
  intros Hsep. revert n' s m.
  induction n as [|n IH]; intros n' s m Hn Hn'.
  - destruct s; [|simpl in Hn; lia]. destruct n'; simpl; [done|].
    destruct (m =? 0); [done|]. destruct sep; [done|]. done.
  - destruct n' as [|n'].
    + destruct s; [|simpl in Hn'; lia]. simpl.
      destruct (m =? 0); [done|]. destruct sep; [done|]. done.
    + simpl. destruct (m =? 0); [done|].
      destruct (find s sep =? -1) eqn:E; [done|]. f_equal.
      unfold find in *.
      destruct (find_at_cases s sep 0) as [[Hf _]|(a & b & -> & Hf & _)];
        [by rewrite Hf in E|].
      rewrite Hf. unfold len. rewrite Z.add_0_l, Nat2Z.id.
      rewrite drop_app_add', drop_app_length by done.
      rewrite !length_app in Hn, Hn'.
      assert (0 < length sep)%nat by (destruct sep; [done|simpl; lia]).
      apply IH; lia.
Qed.

(** The equation [split] satisfies: cut at the first occurrence and go on
    with what follows it. *)
Lemma split_max_cut a sep b m :
  sep <> [] -> m <> 0 -> find (a ++ sep ++ b) sep = len a ->
  split_max (a ++ sep ++ b) sep m = a :: split_max b sep (m - 1).
Proof.
  intros Hsep Hm Hf. unfold split_max.
  assert (0 < length sep)%nat by (destruct sep; [done|simpl; lia]).
  destruct (length (a ++ sep ++ b)) as [|n] eqn:El;
    [rewrite !length_app in El; lia|].
  simpl. destruct (m =? 0) eqn:Em; [apply Z.eqb_eq in Em; lia|].
  rewrite Hf. destruct (len a =? -1) eqn:E;
    [apply Z.eqb_eq in E; pose proof (len_nonneg a); lia|].
  unfold len. rewrite Nat2Z.id.
  rewrite take_app_length, drop_app_add', drop_app_length by done.
  f_equal. apply split_fuel_enough; [done| |lia].
  rewrite !length_app in El. lia.
Qed.

Lemma split_max_none s sep m :
  contains s sep = false -> split_max s sep m = [s].
Proof.
  unfold contains, split_max. intros Hc.
  apply negb_false_iff in Hc.
  destruct (length s); simpl; [done|]. rewrite Hc. by destruct (m =? 0).
Qed.

Lemma split_fuel_unlimited n s sep m m' :
  m < 0 -> m' < 0 -> split_fuel n s sep m = split_fuel n s sep m'.
Proof.
  revert s m m'. induction n as [|n IH]; intros s m m' Hm Hm'; simpl; [done|].
  destruct (m =? 0) eqn:E; [apply Z.eqb_eq in E; lia|].
  destruct (m' =? 0) eqn:E'; [apply Z.eqb_eq in E'; lia|].
  destruct (find s sep =? -1); [done|]. f_equal. apply IH; lia.
Qed.

Lemma split_cut a sep b :
  sep <> [] -> find (a ++ sep ++ b) sep = len a ->
  split (a ++ sep ++ b) sep = a :: split b sep.
Proof.
  intros Hsep Hf. unfold split. rewrite split_max_cut by done.
  f_equal. apply split_fuel_unlimited; lia.
Qed.

Lemma split_fence a b :
  clean a -> split (a ++ FENCE ++ b) FENCE = a :: split b FENCE.
Proof. intros Ha. apply split_cut; [done|by apply clean_find]. Qed.

(** *** [strip] *)



Lemma strip_lf s : strip (NL ++ s) = strip s.
Proof. reflexivity. Qed.

(** *** Indexing and slicing *)

Lemma len_cons {A} (c : A) (x : list A) : len (c :: x) = 1 + len x.
Proof. unfold len. simpl. lia. Qed.

Lemma getitem_app a c r : getitem (a ++ c :: r) (len a) = Some c.
Proof.
  unfold getitem. pose proof (len_nonneg a). pose proof (len_nonneg r).
  cbv zeta. rewrite !(proj2 (Z.ltb_ge (len a) 0)) by lia.
  rewrite (proj2 (Z.leb_gt (len (a ++ c :: r)) (len a)))
    by (rewrite len_app, len_cons; lia).
  unfold len. rewrite Nat2Z.id. by rewrite list_lookup_middle.
Qed.

Lemma getitem_end s : getitem s (len s) = None.
Proof.
  unfold getitem. pose proof (len_nonneg s).
  destruct (len s <? 0) eqn:E; [apply Z.ltb_lt in E; lia|].
  by rewrite Z.leb_refl, orb_true_r.
Qed.

Lemma clamp_in s i : 0 <= i <= len s -> clamp s i = i.
Proof.
  intros Hi. unfold clamp.
  destruct (i <? 0) eqn:E; [apply Z.ltb_lt in E; lia|lia].
Qed.

Lemma slice_app a b c : slice (a ++ b ++ c) (len a) (len a + len b) = b.
Proof.
  pose proof (len_nonneg a). pose proof (len_nonneg b).
  pose proof (len_nonneg c).
  unfold slice. rewrite !clamp_in by (rewrite !len_app; lia).
  replace (len a + len b - len a) with (len b) by lia.
  unfold len. rewrite !Nat2Z.id, drop_app_length.
  by rewrite take_app_length.
Qed.

Lemma contains_prefix sub b : contains (sub ++ b) sub = true.
Proof. apply (contains_app [] sub b). Qed.

Lemma find_prefix sub b : find (sub ++ b) sub = 0.
Proof.
  unfold find. rewrite (find_at_first [] sub b); [done|]. simpl. lia.
Qed.

Lemma find_from_app a x sub y :
  (forall j, (j < length x)%nat ->
             startswith (drop j (x ++ sub ++ y)) sub = false) ->
  find_from (a ++ x ++ sub ++ y) sub (len a) = len a + len x.
Proof.
  intros Hno. unfold find_from.
  pose proof (len_nonneg a). pose proof (len_nonneg (x ++ sub ++ y)).
  assert ((len (a ++ x ++ sub ++ y) <? len a) = false) as ->
    by (apply Z.ltb_ge; rewrite len_app; lia).
  rewrite clamp_in by (rewrite len_app; lia).
  replace (Z.to_nat (len a)) with (length a) by (unfold len; lia).
  rewrite drop_app_length. by apply find_at_first.
Qed.

Lemma rfind_suffix a sub : sub <> [] -> rfind (a ++ sub) sub = len a.
Proof.
  intros Hsub. unfold rfind. rewrite rfind_at_suffix by done. lia.
Qed.

(** A text without the character [x]: the first [x] found is the one
    written after it. *)
Lemma absent_char_no_occ x a y :
  Forall (fun c => c <> x) a ->
  forall j, (j < length a)%nat ->
            startswith (drop j (a ++ [x] ++ y)) [x] = false.
Proof.
  intros Hx j Hj. rewrite drop_app_le by lia.
  destruct (drop j a) as [|c r] eqn:E.
  { apply (f_equal length) in E. rewrite length_drop in E. simpl in E. lia. }
  apply (Forall_drop _ j) in Hx. rewrite E in Hx.
  apply Forall_cons in Hx as [Hc _].
  simpl. apply andb_false_iff. left. apply N.eqb_neq. congruence.
Qed.

Lemma line_no_lf x y :
  Forall (fun c => c <> 10%N) x ->
  forall j, (j < length x)%nat ->
            startswith (drop j (x ++ NL ++ y)) NL = false.
Proof. apply absent_char_no_occ. Qed.

Lemma find_char x a y :
  Forall (fun c => c <> x) a -> find (a ++ [x] ++ y) [x] = len a.
Proof.
  intros Ha. unfold find. rewrite find_at_first; [lia|].
  by apply absent_char_no_occ.
Qed.

(** A text without a character of [sub] does not contain [sub]. *)
Lemma contains_absent_char s sub x :
  x ∈ sub -> Forall (fun c => c <> x) s -> contains s sub = false.
Proof.
  intros Hx Hs. apply contains_false_iff. intros j.
  destruct (startswith (drop j s) sub) eqn:E; [|done].
  apply startswith_inv in E as [r E].
  apply (Forall_drop _ j) in Hs. rewrite E in Hs.
  apply Forall_app in Hs as [Hs _].
  rewrite Forall_forall in Hs. by apply Hs in Hx.
Qed.

Lemma split_max_zero s sep : split_max s sep 0 = [s].
Proof. unfold split_max. by destruct (length s). Qed.

End Strings.

(** * The built-ins on small inputs *)

Example split_overlapping :
  split (py "a````b") FENCE = [py "a"; py "`b"].
Proof. reflexivity. Qed.

Example split_empty : split [] FENCE = [[]].
Proof. reflexivity. Qed.

Example split_once :
  split_max (py "data:a;base64,QQ,==") (py ",") 1
  = [py "data:a;base64"; py "QQ,=="].
Proof. reflexivity. Qed.

Example find_absent : find (py "abc") FENCE = -1.
Proof. reflexivity. Qed.

Example find_from_absent_plus_one : find_from (py "```abc```") NL 3 + 1 = 0.
Proof. reflexivity. Qed.

Example rfind_last : rfind (py "````") FENCE = 1.
Proof. reflexivity. Qed.

Example getitem_past_end : getitem (py "```") 3 = None.
Proof. reflexivity. Qed.

Example strip_unicode_space :
  strip ([160; 8195; 10]%N ++ py "a b" ++ [9; 12288]%N) = py "a b".
Proof. reflexivity. Qed.

Example b64decode_unpadded :
  b64decode (py "aGVsbG8") = Raise (BinasciiError (py "Incorrect padding")).
Proof. reflexivity. Qed.

Example b64decode_skips_other_characters :
  b64decode (py "aGVs bG8=
") = Ok (py "hello").
Proof. reflexivity. Qed.

Example b64decode_stops_at_padding :
  b64decode (py "aGk=aGk=") = Ok (py "hi").
Proof. reflexivity. Qed.

Example utf8_decode_ignore_drops :
  utf8_decode_ignore [226; 130; 172; 255; 65; 237; 160; 128; 195]%N
  = [8364; 65]%N.
Proof. reflexivity. Qed.

Example universal_newlines_crlf :
  universal_newlines (py "a" ++ [13; 10; 13]%N ++ py "b")
  = py "a" ++ [10; 10]%N ++ py "b".
Proof. reflexivity. Qed.

(** The paths of the concrete environment: [pathlib] keeps [..] and drops
    [.] and doubled separators, an absolute name replaces the directory,
    and the file a path names is reached through [..]. *)
Example pathlib_join_plain :
  pathlib_join (py "/tmp/llm_attachments") (py "a.txt")
  = py "/tmp/llm_attachments/a.txt".
Proof. reflexivity. Qed.

Example pathlib_join_dots :
  pathlib_join (py "/tmp/llm_attachments") (py "./x//../a.txt/")
  = py "/tmp/llm_attachments/x/../a.txt".
Proof. reflexivity. Qed.

Example pathlib_join_absolute :
  pathlib_join (py "/tmp/llm_attachments") (py "/etc/passwd")
  = py "/etc/passwd".
Proof. reflexivity. Qed.

Example normpath_dots :
  normpath (py "/tmp/llm_attachments/x/../a.txt")
  = py "/tmp/llm_attachments/a.txt".
Proof. reflexivity. Qed.

Example repr_str_quotes :
  repr_str (py "it's") = [34%N] ++ py "it's" ++ [34%N]
  /\ repr_str (py "must load") = py "'must load'"
  /\ repr_str (py "a\b" ++ NL) = py "'a\\b\n'".
Proof. repeat split; reflexivity. Qed.

(** What [url.startswith] raises on a url that is not a string. *)
Example no_attribute_none :
  no_attribute PyNone (py "startswith")
  = AttributeError (py "'NoneType' object has no attribute 'startswith'")
  /\ no_attribute (PyOther (py "int")) (py "startswith")
     = AttributeError (py "'int' object has no attribute 'startswith'").
Proof. split; reflexivity. Qed.

(** * The block-stripping step *)

Section StripCodeBlock.
Local Arguments N.eqb : simpl never.
Local Arguments len : simpl never.

(** What [_strip_code_block] returns on a fence as [generate_app_code]
    rebuilds it: an opening line [tag], then [body].  With a tag, an empty
    body is not covered: there the closing fence is not after the start of
    the content. *)
Lemma strip_code_block_wrapped tag body :
  Forall (fun c => c <> 10%N) tag ->
  tag = [] \/ body <> [] ->
  _strip_code_block (FENCE ++ tag ++ NL ++ body ++ FENCE) = Ok (strip body).
Proof.
  intros Htag Hcase. unfold _strip_code_block.
  rewrite contains_prefix, find_prefix.
  change (0 + 3) with (len FENCE).
  pose proof (len_nonneg tag). pose proof (len_nonneg body).
  assert (rfind (FENCE ++ tag ++ NL ++ body ++ FENCE) FENCE
          = len FENCE + (len tag + 1 + len body)) as ->.
  { replace (FENCE ++ tag ++ NL ++ body ++ FENCE)
      with ((FENCE ++ tag ++ NL ++ body) ++ FENCE)
      by (by rewrite <- !app_assoc).
    rewrite rfind_suffix by done. rewrite !len_app.
    change (len NL) with 1. lia. }
  destruct tag as [|t tag].
  - change ([] ++ NL ++ body ++ FENCE) with (10%N :: body ++ FENCE).
    rewrite getitem_app. simpl negb. cbv iota.
    rewrite (proj2 (Z.gtb_gt _ _)) by (change (@len N []) with 0; lia).
    rewrite <- (strip_lf body). f_equal. f_equal.
    change (10%N :: body ++ FENCE) with ((NL ++ body) ++ FENCE).
    replace (len [] + 1 + len body) with (len (NL ++ body))
      by (rewrite len_app; change (len NL) with 1;
          change (@len N []) with 0; lia).
    apply slice_app.
  - destruct Hcase as [?|Hbody]; [done|].
    pose proof Htag as Htag'. apply Forall_cons in Htag' as [Ht _].
    change ((t :: tag) ++ NL ++ body ++ FENCE)
      with (t :: tag ++ NL ++ body ++ FENCE).
    rewrite getitem_app.
    destruct (N.eqb_spec t 10) as [?|_]; [done|]. simpl negb. cbv iota.
    change (t :: tag ++ NL ++ body ++ FENCE)
      with ((t :: tag) ++ NL ++ body ++ FENCE).
    rewrite find_from_app by (by apply line_no_lf).
    assert (0 < len body).
    { destruct body; [done|]. rewrite len_cons. pose proof (len_nonneg body).
      lia. }
    rewrite (proj2 (Z.gtb_gt _ _)) by lia.
    f_equal. f_equal.
    replace (FENCE ++ (t :: tag) ++ NL ++ body ++ FENCE)
      with ((FENCE ++ (t :: tag) ++ NL) ++ body ++ FENCE)
      by (by rewrite <- !app_assoc).
    replace (len FENCE + len (t :: tag) + 1)
      with (len (FENCE ++ (t :: tag) ++ NL))
      by (rewrite !len_app; change (len NL) with 1; lia).
    replace (len FENCE + (len (t :: tag) + 1 + len body))
      with (len (FENCE ++ (t :: tag) ++ NL) + len body)
      by (rewrite !len_app; change (len NL) with 1; lia).
    apply slice_app.
Qed.

(** [_strip_code_block] raises exactly when the text ends right after its
    first fence. *)
Lemma strip_code_block_raises_iff text :
  (exists e, _strip_code_block text = Raise e) <->
  contains text FENCE = true /\ find text FENCE + 3 = len text.
Proof.
  unfold _strip_code_block. split.
  - intros [e He]. destruct (contains text FENCE) eqn:Ec; [|done].
    split; [done|]. unfold contains, find in *.
    destruct (find_at_cases text FENCE 0)
      as [[Hf _]|(a & b & -> & Hf & _)]; [by rewrite Hf in Ec|].
    rewrite Hf in *. destruct b as [|c b].
    + rewrite !len_app. unfold len. simpl. lia.
    + replace (0 + len a + 3) with (len (a ++ FENCE)) in He
        by (rewrite len_app; unfold len; simpl; lia).
      replace (a ++ FENCE ++ c :: b) with ((a ++ FENCE) ++ c :: b) in He
        by (by rewrite <- app_assoc).
      rewrite getitem_app in He.
      by destruct (negb (c =? 10)%N), (_ >? _) in He.
  - intros [-> ->]. rewrite getitem_end. eauto.
Qed.

End StripCodeBlock.

(** * The response extractor *)

Section Extractor.
Local Arguments N.eqb : simpl never.
Local Arguments len : simpl never.

Lemma forallb_Forall {A} (f : A -> bool) (P : A -> Prop) (l : list A) :
  (forall x, f x = true -> P x) -> forallb f l = true -> Forall P l.
Proof.
  intros HfP. induction l as [|x l IH]; simpl; [by constructor|].
  intros Hl. apply andb_true_iff in Hl as [Hx Hl].
  constructor; [by apply HfP|by apply IH].
Qed.

Lemma is_tag_no_tick tag :
  is_tag tag = true -> Forall (fun c => c <> TICK) tag.
Proof.
  apply forallb_Forall. intros x Hx.
  apply andb_true_iff in Hx as [_ Hx]. apply negb_true_iff in Hx.
  by apply N.eqb_neq in Hx.
Qed.

Lemma is_tag_no_lf tag : is_tag tag = true -> Forall (fun c => c <> 10%N) tag.
Proof.
  apply forallb_Forall. intros x Hx.
  apply andb_true_iff in Hx as [Hx _]. apply negb_true_iff in Hx.
  by apply N.eqb_neq in Hx.
Qed.

Lemma ticks_tag k tag :
  is_tag tag = true -> ticks k tag = Some (if tag is [] then k else 0%nat).
Proof.
  intros Ht. destruct tag as [|c tag]; [done|].
  apply ticks_no_tick; [by apply is_tag_no_tick|done].
Qed.

Lemma is_content_clean s : is_content s = true -> clean s.
Proof.
  unfold is_content, fence_free. intros Hs.
  apply andb_true_iff in Hs as [Hf He].
  apply negb_true_iff in Hf, He. by apply no_fence_clean.
Qed.

(** What is between the fences of a block is clean. *)
Lemma clean_block tag body :
  is_tag tag = true -> clean body -> clean (tag ++ NL ++ body).
Proof.
  intros Ht Hb. unfold clean. rewrite ticks_app, (ticks_tag _ _ Ht).
  simpl. by destruct tag.
Qed.

(** The split of a text that starts with two blocks: the segments at
    positions 1 and 3 are the blocks' tag lines and contents. *)
Lemma split_two_blocks pre tag1 body1 mid tag2 body2 post :
  clean pre -> clean mid ->
  is_tag tag1 = true -> clean body1 ->
  is_tag tag2 = true -> clean body2 ->
  split (pre ++ fenced tag1 body1 ++ mid ++ fenced tag2 body2 ++ post) FENCE
  = pre :: (tag1 ++ NL ++ body1) :: mid :: (tag2 ++ NL ++ body2)
      :: split post FENCE.
Proof.
  intros Hpre Hmid Ht1 Hb1 Ht2 Hb2. unfold fenced.
  replace (pre ++ (FENCE ++ tag1 ++ NL ++ body1 ++ FENCE) ++
           mid ++ (FENCE ++ tag2 ++ NL ++ body2 ++ FENCE) ++ post)
    with (pre ++ FENCE ++ (tag1 ++ NL ++ body1) ++ FENCE ++
          mid ++ FENCE ++ (tag2 ++ NL ++ body2) ++ FENCE ++ post)
    by (by rewrite <- !app_assoc).
  rewrite split_fence by done.
  rewrite split_fence by by apply clean_block.
  rewrite split_fence by done.
  rewrite split_fence by by apply clean_block.
  done.
Qed.

Lemma split_length s sep : 1 <= len (split s sep).
Proof.
  unfold split, split_max.
  pose proof (split_fuel_nonempty (length s) s sep (-1)).
  destruct (split_fuel _ _ _ _) as [|x l]; [done|].
  rewrite len_cons. pose proof (len_nonneg l). lia.
Qed.

(** A rebuilt fence never makes [_strip_code_block] raise: it does not end
    right after its first fence. *)
Lemma strip_code_block_rebuilt p :
  exists r, _strip_code_block (FENCE ++ p ++ FENCE) = Ok r.
Proof.
  destruct (_strip_code_block (FENCE ++ p ++ FENCE)) as [r|e] eqn:E;
    [by exists r|].
  assert (exists e, _strip_code_block (FENCE ++ p ++ FENCE) = Raise e) as Hr
    by eauto.
  apply strip_code_block_raises_iff in Hr as [_ Hr].
  rewrite find_prefix, !len_app in Hr. pose proof (len_nonneg p).
  change (len FENCE) with 3 in Hr. lia.
Qed.


(** The extractor on a text that starts with two blocks. *)
Lemma extract_parts_blocks pre tag1 body1 mid tag2 body2 post
    brief checks meta round_num :
  clean pre -> clean mid ->
  is_tag tag1 = true -> clean body1 ->
  is_tag tag2 = true -> clean body2 ->
  tag1 = [] \/ body1 <> [] ->
  tag2 = [] \/ body2 <> [] ->
  extract_parts
    (pre ++ fenced tag1 body1 ++ mid ++ fenced tag2 body2 ++ post)
    brief checks meta round_num
  = Ok (strip body1, strip body2).
Proof.
  intros Hpre Hmid Ht1 Hb1 Ht2 Hb2 H1 H2.
  unfold extract_parts. rewrite split_two_blocks by done.
  pose proof (split_length post FENCE) as Hl.
  rewrite (proj2 (Z.leb_le _ _)) by (rewrite !len_cons; lia).
  rewrite <- !app_assoc.
  rewrite !strip_code_block_wrapped by (done || by apply is_tag_no_lf).
  done.
Qed.

(** C2 (the extractor never raises): refuted by the code.  On the response
    consisting of one fence and nothing after it, the split yields two
    segments, so the whole text goes through [_strip_code_block], which
    reads the character after the fence, [text[start]], past the end of the
    text: [IndexError] leaves the extractor. *)
Theorem extract_parts_dangling_fence brief checks meta round_num :
  _strip_code_block (py "```")
    = Raise (IndexError (py "string index out of range"))
  /\ extract_parts (py "```") brief checks meta round_num
    = Raise (IndexError (py "string index out of range")).
Proof. split; reflexivity. Qed.

(** C3, as stated, fails: a block with a language tag and an empty content
    is well formed, and the extractor returns the whole rebuilt fence for
    it, not the (empty) inner content. *)
Lemma extract_two_blocks_empty_content :
  two_blocks (py "```html
```
```markdown
# Doc
```") [] (py "html") [] NL (py "markdown") (py "# Doc
") []
  /\ extract_parts (py "```html
```
```markdown
# Doc
```") [] None [] 1 = Ok (py "```html
```", py "# Doc")
  /\ extract_parts (py "```html
```
```markdown
# Doc
```") [] None [] 1 <> Ok (strip [], strip (py "# Doc
")).
Proof.
  split; [by repeat split|]. split; [reflexivity|]. by vm_compute.
Qed.

(** C3, amended: on a response of exactly two well-formed fenced blocks,
    each with a non-empty inner content or without a language tag, the
    extractor returns the first block's inner content as the source text
    and the second block's as the documentation text, each trimmed and
    without the tag line. *)
Theorem extract_two_blocks text pre tag1 body1 mid tag2 body2 post
    brief checks meta round_num :
  two_blocks text pre tag1 body1 mid tag2 body2 post ->
  tag1 = [] \/ body1 <> [] ->
  tag2 = [] \/ body2 <> [] ->
  extract_parts text brief checks meta round_num
  = Ok (strip body1, strip body2).
Proof.
  intros (-> & Hpre & Hmid & _ & Ht1 & Hb1 & Ht2 & Hb2) H1 H2.
  apply extract_parts_blocks; try done; by apply is_content_clean.
Qed.

Lemma extract_two_blocks_witness :
  extract_parts (py "```html
<p>hi</p>
```
```markdown
# Doc
```") [] None [] 1 = Ok (py "<p>hi</p>", py "# Doc").
Proof.
  apply (extract_two_blocks _ [] (py "html") (py "<p>hi</p>
") NL (py "markdown") (py "# Doc
") []).
  - by repeat split.
  - by right.
  - by right.
Defined.

Lemma extract_short_parts text brief checks meta round_num :
  len (split text FENCE) < 5 ->
  (forall code, _strip_code_block text = Ok code ->
     extract_parts text brief checks meta round_num
     = Ok (code, generate_readme_fallback brief checks (Some meta) round_num))
  /\ (forall e, _strip_code_block text = Raise e ->
        extract_parts text brief checks meta round_num = Raise e).
Proof.
  intros Hl. unfold extract_parts.
  rewrite (proj2 (Z.leb_gt _ _)) by lia.
  split; [by intros code ->|by intros e ->].
Qed.

(** C4 (on a response of fewer than five segments the source text is
    [_strip_code_block] of the whole response and the documentation text is
    the fallback README): refuted by the code on the responses that end
    right after their first fence.  There the split yields two segments and
    [_strip_code_block] reads [text[start]] past the end of the text: the
    [IndexError] of C2 leaves the extractor, which returns neither text.
    On every other response of fewer than five segments the extractor
    returns what the claim says, and the fallback README is never empty. *)
Theorem extract_short_response text brief checks meta round_num :
  len (split text FENCE) < 5 ->
  generate_readme_fallback brief checks (Some meta) round_num <> []
  /\ (contains text FENCE = true /\ find text FENCE + 3 = len text ->
      len (split text FENCE) = 2
      /\ extract_parts text brief checks meta round_num
         = Raise (IndexError (py "string index out of range")))
  /\ (~ (contains text FENCE = true /\ find text FENCE + 3 = len text) ->
      exists code,
        _strip_code_block text = Ok code
        /\ extract_parts text brief checks meta round_num
           = Ok (code,
                 generate_readme_fallback brief checks (Some meta)
                   round_num)).
Proof.
  intros Hl. destruct (extract_short_parts text brief checks meta round_num Hl)
    as [Hok Hraise].
  split; [done|]. split.
  - intros [Hc Hf]. split.
    + unfold contains, find in Hc, Hf.
      destruct (find_at_cases text FENCE 0)
        as [[Hn _]|(a & b & -> & Hn & _)]; [by rewrite Hn in Hc|].
      rewrite Hn, !len_app in Hf. change (len FENCE) with 3 in Hf.
      assert (b = []) as ->.
      { destruct b as [|c b]; [done|]. rewrite len_cons in Hf.
        pose proof (len_nonneg b). lia. }
      rewrite split_cut by (by unfold find; rewrite ?Hn). reflexivity.
    + apply Hraise. unfold _strip_code_block. rewrite Hc, Hf.
      by rewrite getitem_end.
  - intros Hn. destruct (_strip_code_block text) as [code|e] eqn:E.
    + exists code. split; [done|by apply Hok].
    + destruct Hn. apply strip_code_block_raises_iff. eauto.
Qed.

Lemma extract_short_response_witness :
  (len (split (py "Here is the app:```") FENCE) = 2
   /\ extract_parts (py "Here is the app:```") (py "a clock") None [] 1
      = Raise (IndexError (py "string index out of range")))
  /\ exists code,
       _strip_code_block (py "```html
<p>hi</p>
```") = Ok code
       /\ extract_parts (py "```html
<p>hi</p>
```") (py "a clock") None [] 1
          = Ok (code, generate_readme_fallback (py "a clock") None (Some []) 1).
Proof.
  split.
  - apply (extract_short_response (py "Here is the app:```") (py "a clock")
             None [] 1); [by vm_compute|]. split; reflexivity.
  - apply (extract_short_response (py "```html
<p>hi</p>
```") (py "a clock") None [] 1); [by vm_compute|].
    intros [_ Hf]. by vm_compute in Hf.
Defined.

End Extractor.

(** * The fallback documentation *)

Section FallbackDoc.

Lemma endswith_app a p : endswith (a ++ p) p = true.
Proof. unfold endswith. rewrite rev_app_distr. apply startswith_app. Qed.

(** C9: [generate_readme_fallback] is a function of its four arguments
    alone (it takes no file system and no environment).  Its output is a
    title naming the round, the brief, the attachment summary and the checks
    joined by line feeds in their order, each verbatim and in this order,
    followed by the fixed Setup and Notes sections; equal inputs give equal
    outputs. *)
Theorem generate_readme_fallback_structure brief checks attachments_meta
    round_num :
  let out := generate_readme_fallback brief checks attachments_meta round_num in
  let checks_text := join NL (default [] checks) in
  let att_text := str_or attachments_meta [] in
  out = py "# Auto-generated README (Round " ++ str_of_int round_num
          ++ py ")" ++ NL ++ NL
        ++ py "**Project brief:** " ++ brief ++ NL ++ NL
        ++ py "**Attachments:**" ++ NL ++ att_text ++ NL ++ NL
        ++ py "**Checks to meet:**" ++ NL ++ checks_text ++ NL ++ NL
        ++ SETUP_AND_NOTES
  /\ contains out (py "Round " ++ str_of_int round_num) = true
  /\ contains out brief = true
  /\ contains out att_text = true
  /\ contains out checks_text = true
  /\ endswith out SETUP_AND_NOTES = true
  /\ (forall brief' checks' attachments_meta' round_num',
        brief' = brief -> checks' = checks ->
        attachments_meta' = attachments_meta -> round_num' = round_num ->
        generate_readme_fallback brief' checks' attachments_meta' round_num'
        = out).
Proof.
  cbv zeta.
  set (checks_text := join NL (default [] checks)).
  set (att_text := str_or attachments_meta []).
  assert (generate_readme_fallback brief checks attachments_meta round_num
          = py "# Auto-generated README (Round " ++ str_of_int round_num
            ++ py ")" ++ NL ++ NL
            ++ py "**Project brief:** " ++ brief ++ NL ++ NL
            ++ py "**Attachments:**" ++ NL ++ att_text ++ NL ++ NL
            ++ py "**Checks to meet:**" ++ NL ++ checks_text ++ NL ++ NL
            ++ SETUP_AND_NOTES) as Hout.
  { reflexivity. }
  split; [done|]. rewrite Hout.
  split.
  { change (py "# Auto-generated README (Round ")
      with (py "# Auto-generated README (" ++ py "Round ").
    rewrite <- !app_assoc.
    rewrite (app_assoc (py "Round ")). apply contains_app. }
  split.
  { rewrite !(app_assoc _ _ (brief ++ _)). apply contains_app. }
  split.
  { rewrite !(app_assoc _ _ (att_text ++ _)). apply contains_app. }
  split.
  { rewrite !(app_assoc _ _ (checks_text ++ _)). apply contains_app. }
  split.
  { rewrite !(app_assoc _ _ SETUP_AND_NOTES). apply endswith_app. }
  by intros ? ? ? ? -> -> -> ->.
Qed.

(** The checks keep their order and are joined by a line feed. *)
Lemma generate_readme_fallback_structure_witness :
  contains
    (generate_readme_fallback (py "b")
       (Some [py "must load"; py "must be responsive"]) None 1)
    (py "must load
must be responsive") = true
  /\ generate_readme_fallback (py "b")
       (Some [py "must load"; py "must be responsive"]) None 1
     = generate_readme_fallback (py "b")
         (Some [py "must load"; py "must be responsive"]) None 1.
Proof.
  destruct (generate_readme_fallback_structure (py "b")
              (Some [py "must load"; py "must be responsive"]) None 1)
    as (_ & _ & _ & _ & Hchecks & _ & Hsame).
  split; [exact Hchecks|].
  exact (Hsame _ _ _ _ eq_refl eq_refl eq_refl eq_refl).
Defined.

End FallbackDoc.

(** * Base64: the decoder inverts the standard encoding *)

Section Base64.
Local Arguments N.eqb : simpl never.

Lemma octets_all b : (b < 256)%N -> In b octets.
Proof.
  intros Hb. unfold octets. apply in_map_iff. exists (N.to_nat b).
  split; [apply N2Nat.id|]. apply in_seq. lia.
Qed.

Lemma sextets_checked :
  forallb sextet_ok (map N.of_nat (seq 0 64)) = true.
Proof. vm_compute. reflexivity. Qed.

Lemma octets_checked : forallb octet_ok octets = true.
Proof. vm_compute. reflexivity. Qed.

Lemma pairs_checked :
  forallb (fun a => forallb (pair_ok a) octets) octets = true.
Proof. vm_compute. reflexivity. Qed.

Lemma sextet_sound v : (v < 64)%N -> sextet_ok v = true.
Proof.
  intros Hv. pose proof sextets_checked as Hc.
  rewrite forallb_forall in Hc. apply Hc, in_map_iff.
  exists (N.to_nat v). split; [apply N2Nat.id|]. apply in_seq. lia.
Qed.

Lemma octet_sound a : (a < 256)%N -> octet_ok a = true.
Proof.
  intros Ha. pose proof octets_checked as Hc.
  rewrite forallb_forall in Hc. by apply Hc, octets_all.
Qed.

Lemma pair_sound a b : (a < 256)%N -> (b < 256)%N -> pair_ok a b = true.
Proof.
  intros Ha Hb. pose proof pairs_checked as Hc.
  rewrite forallb_forall in Hc. apply octets_all, Hc in Ha.
  rewrite forallb_forall in Ha. by apply Ha, octets_all.
Qed.

(** The decoder reads an encoded sextet as that sextet. *)
Lemma loop_sextet v rest quad_pos leftchar pads bin_data :
  (v < 64)%N ->
  a2b_base64_loop (table_b2a_base64 v :: rest) quad_pos leftchar pads bin_data
  = match quad_pos with
    | O => a2b_base64_loop rest 1 v 0 bin_data
    | 1%nat =>
        a2b_base64_loop rest 2 (N.land v 15) 0
          (bin_data ++
           [N.land (N.lor (N.shiftl leftchar 2) (N.shiftr v 4)) 255])
    | 2%nat =>
        a2b_base64_loop rest 3 (N.land v 3) 0
          (bin_data ++
           [N.land (N.lor (N.shiftl leftchar 4) (N.shiftr v 2)) 255])
    | _ =>
        a2b_base64_loop rest 0 0 0
          (bin_data ++ [N.land (N.lor (N.shiftl leftchar 6) v) 255])
    end.
Proof.
  intros Hv. apply sextet_sound in Hv. unfold sextet_ok in Hv.
  apply andb_true_iff in Hv as [Hv _]. apply andb_true_iff in Hv as [Hp Ht].
  apply negb_true_iff in Hp. apply bool_decide_eq_true in Ht.
  simpl. by rewrite Hp, Ht.
Qed.

Lemma octet_facts a :
  (a < 256)%N ->
  (N.shiftr a 2 < 64)%N /\ (N.land a 63 < 64)%N
  /\ N.land (N.lor (N.shiftl (N.shiftr a 2) 2) (N.land a 3)) 255 = a
  /\ N.land (N.lor (N.shiftl (N.shiftr a 4) 4) (N.land a 15)) 255 = a
  /\ N.land (N.lor (N.shiftl (N.shiftr a 6) 6) (N.land a 63)) 255 = a.
Proof.
  intros Ha. apply octet_sound in Ha. unfold octet_ok in Ha.
  repeat (apply andb_true_iff in Ha as [Ha ?]).
  repeat split; by (apply N.ltb_lt || apply N.eqb_eq).
Qed.

Lemma pair_facts a b :
  (a < 256)%N -> (b < 256)%N ->
  let v1 := N.lor (N.shiftl (N.land a 3) 4) (N.shiftr b 4) in
  let v2 := N.lor (N.shiftl (N.land a 15) 2) (N.shiftr b 6) in
  (v1 < 64)%N /\ N.shiftr v1 4 = N.land a 3 /\ N.land v1 15 = N.shiftr b 4
  /\ (v2 < 64)%N /\ N.shiftr v2 2 = N.land a 15
  /\ N.land v2 3 = N.shiftr b 6.
Proof.
  intros Ha Hb. pose proof (pair_sound a b Ha Hb) as Hp.
  unfold pair_ok in Hp. cbv zeta in *.
  repeat (apply andb_true_iff in Hp as [Hp ?]).
  repeat split; by (apply N.ltb_lt || apply N.eqb_eq).
Qed.

(** Four encoded characters give back the three octets they encode. *)
Lemma loop_quad a b c rest out :
  (a < 256)%N -> (b < 256)%N -> (c < 256)%N ->
  a2b_base64_loop (b64encode [a; b; c] ++ rest) 0 0 0 out
  = a2b_base64_loop rest 0 0 0 (out ++ [a; b; c]).
Proof.
  intros Ha Hb Hc.
  destruct (octet_facts a Ha) as (Ha0 & _ & Ha2 & _ & _).
  destruct (octet_facts b Hb) as (_ & _ & _ & Hb4 & _).
  destruct (octet_facts c Hc) as (_ & Hc3 & _ & _ & Hc6).
  destruct (pair_facts a b Ha Hb) as (H1 & H1h & H1l & _ & _ & _).
  destruct (pair_facts b c Hb Hc) as (_ & _ & _ & H2 & H2h & H2l).
  cbn [b64encode app].
  rewrite !loop_sextet by done.
  rewrite H1h, H1l, H2h, H2l, Ha2, Hb4, Hc6.
  by rewrite <- !app_assoc.
Qed.

(** [a2b_base64] inverts the standard encoding. *)
Lemma a2b_base64_loop_encoded n data out :
  (length data <= n)%nat -> Forall (fun b => (b < 256)%N) data ->
  a2b_base64_loop (b64encode data) 0 0 0 out = Ok (out ++ data).
Proof.
  revert data out. induction n as [|n IH]; intros data out Hn Hd.
  { destruct data; [|simpl in Hn; lia]. simpl. by rewrite app_nil_r. }
  destruct data as [|a [|b [|c data]]].
  - simpl. by rewrite app_nil_r.
  - apply Forall_cons in Hd as [Ha _].
    destruct (octet_facts a Ha) as (Ha0 & _ & Ha2 & _ & _).
    destruct (pair_facts a 0 Ha eq_refl) as (H1 & H1h & _ & _ & _ & _).
    rewrite N.shiftr_0_l, N.lor_0_r in H1, H1h.
    cbn [b64encode]. rewrite !loop_sextet by done.
    rewrite H1h, Ha2. reflexivity.
  - apply Forall_cons in Hd as [Ha Hd]. apply Forall_cons in Hd as [Hb _].
    destruct (octet_facts a Ha) as (Ha0 & _ & Ha2 & _ & _).
    destruct (octet_facts b Hb) as (_ & _ & _ & Hb4 & _).
    destruct (pair_facts a b Ha Hb) as (H1 & H1h & H1l & _ & _ & _).
    destruct (pair_facts b 0 Hb eq_refl) as (_ & _ & _ & H2 & H2h & _).
    rewrite N.shiftr_0_l, N.lor_0_r in H2, H2h.
    cbn [b64encode]. rewrite !loop_sextet by done.
    rewrite H1h, H1l, H2h, Ha2, Hb4. simpl.
    by rewrite <- !app_assoc.
  - apply Forall_cons in Hd as [Ha Hd]. apply Forall_cons in Hd as [Hb Hd].
    apply Forall_cons in Hd as [Hc Hd].
    change (b64encode (a :: b :: c :: data))
      with (b64encode [a; b; c] ++ b64encode data).
    rewrite loop_quad by done.
    rewrite IH; [by rewrite <- app_assoc| |done].
    simpl in Hn. lia.
Qed.

Lemma b64encode_ascii data :
  Forall (fun b => (b < 256)%N) data ->
  forallb (fun c => (c <? 128)%N) (b64encode data) = true.
Proof.
  assert (forall v, (v < 64)%N -> (table_b2a_base64 v <? 128)%N = true)
    as Hs.
  { intros v Hv. apply sextet_sound in Hv. unfold sextet_ok in Hv.
    by apply andb_true_iff in Hv as [_ Hv]. }
  assert (forall n data, (length data <= n)%nat ->
            Forall (fun b => (b < 256)%N) data ->
            forallb (fun c => (c <? 128)%N) (b64encode data) = true) as Hn.
  { induction n as [|n IH]; intros d Hl Hd.
    { by destruct d; [|simpl in Hl; lia]. }
    destruct d as [|a [|b [|c d]]]; [done| | |].
    - apply Forall_cons in Hd as [Ha _].
      destruct (octet_facts a Ha) as (Ha0 & _).
      destruct (pair_facts a 0 Ha eq_refl) as (H1 & _).
      rewrite N.shiftr_0_l, N.lor_0_r in H1.
      cbn [b64encode forallb]. by rewrite !Hs.
    - apply Forall_cons in Hd as [Ha Hd]. apply Forall_cons in Hd as [Hb _].
      destruct (octet_facts a Ha) as (Ha0 & _).
      destruct (pair_facts a b Ha Hb) as (H1 & _).
      destruct (pair_facts b 0 Hb eq_refl) as (_ & _ & _ & H2 & _).
      rewrite N.shiftr_0_l, N.lor_0_r in H2.
      cbn [b64encode forallb]. by rewrite !Hs.
    - apply Forall_cons in Hd as [Ha Hd]. apply Forall_cons in Hd as [Hb Hd].
      apply Forall_cons in Hd as [Hc Hd].
      destruct (octet_facts a Ha) as (Ha0 & _).
      destruct (octet_facts c Hc) as (_ & Hc3 & _).
      destruct (pair_facts a b Ha Hb) as (H1 & _).
      destruct (pair_facts b c Hb Hc) as (_ & _ & _ & H2 & _).
      cbn [b64encode forallb]. rewrite !Hs by done.
      apply IH; [simpl in Hl; lia|done]. }
  intros Hd. by apply (Hn (length data)).
Qed.

(** Every sequence of octets is the decoding of its standard encoding:
    the payloads of valid data URIs are decoded to the bytes they encode. *)
Lemma b64decode_b64encode data :
  Forall (fun b => (b < 256)%N) data -> b64decode (b64encode data) = Ok data.
Proof.
  intros Hd. unfold b64decode. rewrite b64encode_ascii by done.
  unfold a2b_base64. by rewrite (a2b_base64_loop_encoded (length data)).
Qed.

Example b64encode_hello : b64encode (py "hello") = py "aGVsbG8=".
Proof. reflexivity. Qed.

End Base64.

(** * The attachment decoder *)

Section Decoder.
Context `{Env}.
Local Arguments N.eqb : simpl never.
Local Arguments len : simpl never.

Lemma valid_mime_absent mime x :
  mime_char x = false -> valid_mime mime = true ->
  Forall (fun c => c <> x) mime.
Proof.
  intros Hx. apply forallb_Forall. intros c Hc ->. congruence.
Qed.

(** The header of a valid data URI and its payload, as [url.split(",", 1)]
    returns them. *)
Lemma split_data_uri mime payload :
  valid_mime mime = true ->
  split_max (data_uri mime payload) (py ",") 1
  = [py "data:" ++ mime ++ py ";base64"; payload].
Proof.
  intros Hm. unfold data_uri.
  replace (py "data:" ++ mime ++ py ";base64," ++ payload)
    with ((py "data:" ++ mime ++ py ";base64") ++ py "," ++ payload)
    by (by rewrite <- !app_assoc).
  rewrite split_max_cut; [by rewrite split_max_zero|done|done|].
  apply (find_char 44).
  apply Forall_app. split; [by repeat constructor|].
  apply Forall_app. split; [|by repeat constructor].
  by apply valid_mime_absent.
Qed.

(** The media type the decoder records for a valid data URI. *)
Lemma mime_of_header mime :
  valid_mime mime = true ->
  exists rest, split (py "data:" ++ mime ++ py ";base64") (py ";")
               = (py "data:" ++ mime) :: rest
  /\ replace (py "data:" ++ mime) (py "data:") [] = mime.
Proof.
  intros Hm. exists (split (py "base64") (py ";")). split.
  - replace (py "data:" ++ mime ++ py ";base64")
      with ((py "data:" ++ mime) ++ py ";" ++ py "base64")
      by (by rewrite <- !app_assoc).
    apply split_cut; [done|]. apply (find_char 59).
    apply Forall_app. split; [by repeat constructor|].
    by apply valid_mime_absent.
  - unfold replace.
    pose proof (split_cut [] (py "data:") mime) as Hc. rewrite app_nil_l in Hc.
    rewrite Hc; [|done|apply find_prefix]. clear Hc.
    unfold split. rewrite split_max_none; [done|].
    apply (contains_absent_char _ _ 58); [|by apply valid_mime_absent].
    apply list_elem_of_In. simpl. tauto.
Qed.

(** [replace] removes every [data:] of the header, not only its prefix;
    the media type of a valid data URI holds none. *)
Example replace_every_occurrence :
  replace (py "data:xdata:y") (py "data:") [] = py "xy".
Proof. reflexivity. Qed.

Lemma decode_try_data_uri fs name mime payload data :
  valid_mime mime = true ->
  b64decode payload = Ok data ->
  decode_try fs name (data_uri mime payload)
  = match write_file fs (tmp_path name) data with
    | (fs', Raise e) => (fs', Raise e)
    | (fs', Ok _) =>
        (fs', Ok {| Saved.name := name; Saved.path := tmp_path name;
                    Saved.mime := mime; Saved.size := len data |})
    end.
Proof.
  intros Hm Hd. unfold decode_try. rewrite split_data_uri by done.
  destruct (mime_of_header mime Hm) as (rest & -> & ->).
  by rewrite Hd.
Qed.

Lemma write_file_ok fs path data fs' :
  write_file fs path data = (fs', Ok ()) ->
  fs' = <[file_of path := data]> fs
  /\ open_wb fs path = None
  /\ write_wb (<[file_of path := []]> fs) path data = None.
Proof.
  unfold write_file. destruct (open_wb fs path); [done|].
  destruct (write_wb _ path data) as [[e partial]|]; [done|].
  by intros [= <-].
Qed.

(** Whatever [decode_try] returns as a record is what it wrote. *)
Lemma decode_try_ok fs name url fs' r :
  decode_try fs name url = (fs', Ok r) ->
  exists header b64data data,
    split_max url (py ",") 1 = [header; b64data]
    /\ b64decode b64data = Ok data
    /\ fs' = <[file_of (tmp_path name) := data]> fs
    /\ Saved.name r = name /\ Saved.path r = tmp_path name
    /\ Saved.size r = len data.
Proof.
  unfold decode_try.
  destruct (split_max url (py ",") 1) as [|header [|b64data [|? ?]]];
    try done.
  destruct (split header (py ";")) as [|first rest]; [done|].
  destruct (b64decode b64data) as [data|e] eqn:Ed; [|done].
  destruct (write_file fs (tmp_path name) data) as [fs1 [[]|e]] eqn:Ew;
    [|done].
  intros [= <- <-]. apply write_file_ok in Ew as (-> & _ & _).
  by exists header, b64data, data.
Qed.

(** The loop body on a url that is a string (or absent), and on one that
    is not. *)
Lemma decode_one_str fs att :
  str_url att = true ->
  decode_one fs att
  = if negb (is_data att) then (fs, Ok [])
    else let '(fs', r) := decode_try fs (input_name att) (input_url att) in
         (fs', try_except (s ← r; Ok [s]) (fun e => Ok [])).
Proof.
  unfold decode_one, str_url, is_data, input_url, input_name.
  by destruct (att_url att) as [[u| |t]|].
Qed.

Lemma decode_one_not_str fs att :
  str_url att = false ->
  decode_one fs att
  = (fs, Raise (no_attribute (default (PyStr []) (att_url att))
                  (py "startswith"))).
Proof.
  unfold decode_one, str_url. by destruct (att_url att) as [[u| |t]|].
Qed.

Lemma is_data_str att : is_data att = true -> str_url att = true.
Proof.
  unfold is_data, input_url, str_url.
  by destruct (att_url att) as [[u| |t]|].
Qed.

Lemma decode_one_ok fs att :
  str_url att = true ->
  exists fs' new, decode_one fs att = (fs', Ok new) /\ (length new <= 1)%nat.
Proof.
  intros Hs. rewrite decode_one_str by done.
  destruct (negb (is_data att)).
  { exists fs, []. split; [done|simpl; lia]. }
  destruct (decode_try fs _ _) as [fs' [r|e]].
  - exists fs', [r]. split; [done|simpl; lia].
  - exists fs', []. split; [done|simpl; lia].
Qed.

Lemma decode_loop_ok fs atts saved :
  Forall (fun att => str_url att = true) atts ->
  exists fs' new, decode_loop fs atts saved = (fs', Ok (saved ++ new))
                  /\ (length new <= length atts)%nat.
Proof.
  intros Hs. revert fs saved.
  induction Hs as [|att atts Ha _ IH]; intros fs saved.
  - exists fs, []. split; [by rewrite app_nil_r|done].
  - simpl. destruct (decode_one_ok fs att Ha) as (fs1 & new1 & -> & Hl1).
    destruct (IH fs1 (saved ++ new1)) as (fs' & new & -> & Hl).
    exists fs', (new1 ++ new). split; [by rewrite app_assoc|].
    rewrite length_app. lia.
Qed.

(** The loop returns only when every url is a string or absent, and what
    it raises otherwise is the [AttributeError] of [url.startswith] on an
    input whose url is not a string. *)
Lemma decode_loop_returns fs atts saved fs' out :
  decode_loop fs atts saved = (fs', Ok out) ->
  Forall (fun att => str_url att = true) atts.
Proof.
  revert fs saved. induction atts as [|att atts IH]; intros fs saved;
    [by constructor|].
  simpl. destruct (str_url att) eqn:Ha.
  - destruct (decode_one fs att) as [fs1 [new1|e]]; [|done].
    intros Hl. constructor; [done|by eapply IH].
  - by rewrite decode_one_not_str.
Qed.


(** The decoder returns exactly on the sequences whose urls are all
    strings or absent. *)
Lemma decode_attachments_returns_iff fs attachments :
  (exists fs' saved, decode_attachments fs attachments = (fs', Ok saved))
  <-> Forall (fun att => str_url att = true) (default [] attachments).
Proof.
  unfold decode_attachments. split.
  - intros (fs' & saved & Hd). by eapply decode_loop_returns.
  - intros Hs.
    destruct (decode_loop_ok fs (default [] attachments) [] Hs)
      as (fs' & new & E & _).
    by exists fs', new.
Qed.




Lemma decode_one_record fs att fs' new :
  decode_one fs att = (fs', Ok new) ->
  new = [] \/
  exists r, new = [r] /\ is_data att = true
    /\ decode_try fs (input_name att) (input_url att) = (fs', Ok r).
Proof.
  destruct (str_url att) eqn:Hs; [|by rewrite decode_one_not_str].
  rewrite decode_one_str by done.
  destruct (is_data att); simpl negb; cbv iota;
    [|intros [= <- <-]; by left].
  destruct (decode_try fs _ _) as [fs1 [r|e]]; simpl.
  - intros [= <- <-]. right. by exists r.
  - intros [= <- <-]. by left.
Qed.

(** A [data:] url with a comma whose payload decodes, under a name that is
    absent, null or empty, when the file can be opened and written. *)
Lemma decode_one_nameless fs att header payload data :
  att_name att = None \/ att_name att = Some [] ->
  att_url att = Some (PyStr (py "data:" ++ header ++ py "," ++ payload)) ->
  Forall (fun c => c <> 44%N) header ->
  b64decode payload = Ok data ->
  open_wb fs (tmp_path (py "attachment")) = None ->
  write_wb (<[file_of (tmp_path (py "attachment")) := []]> fs)
    (tmp_path (py "attachment")) data = None ->
  exists mime,
    decode_one fs att
    = (<[file_of (tmp_path (py "attachment")) := data]> fs,
       Ok [ {| Saved.name := py "attachment";
               Saved.path := tmp_path (py "attachment");
               Saved.mime := mime; Saved.size := len data |} ]).
Proof.
  intros Hn Hu Hc Hd Ho Hw.
  assert (str_or (att_name att) (py "attachment") = py "attachment") as En
    by (by destruct Hn as [-> | ->]).
  unfold decode_one. rewrite Hu, En. cbn [default from_option]. unfold id.
  rewrite startswith_app. simpl negb. cbv iota. unfold decode_try.
  replace (py "data:" ++ header ++ py "," ++ payload)
    with ((py "data:" ++ header) ++ py "," ++ payload)
    by (by rewrite <- !app_assoc).
  rewrite split_max_cut; [|done|done|].
  2: { apply (find_char 44). apply Forall_app.
       split; [by repeat constructor|done]. }
  rewrite split_max_zero.
  pose proof (split_fuel_nonempty (length (py "data:" ++ header))
                (py "data:" ++ header) (py ";") (-1)) as Hne.
  fold (split_max (py "data:" ++ header) (py ";") (-1)) in Hne.
  fold (split (py "data:" ++ header) (py ";")) in Hne.
  destruct (split (py "data:" ++ header) (py ";")) as [|first rest];
    [done|].
  rewrite Hd. unfold write_file. rewrite Ho, Hw. by eexists.
Qed.

(** C10: an input whose name is absent, null or empty is decoded under the
    name [attachment].  A record returned for it carries that name and the
    scratch path of [attachment], and the file that path names holds the
    bytes of the record; such an input with a decodable [data:] url does
    give a record and a write at that path whenever the file can be opened
    and written; and of two such inputs in one call the second overwrites
    the file of the first: both records carry the same path, and the file
    holds the bytes of the second. *)
Theorem decode_default_name fs att1 att2 :
  att_name att1 = None \/ att_name att1 = Some [] ->
  att_name att2 = None \/ att_name att2 = Some [] ->
  let path := tmp_path (py "attachment") in
  (forall fs' r,
     decode_one fs att1 = (fs', Ok [r]) ->
     Saved.name r = py "attachment"
     /\ Saved.path r = path
     /\ exists data, fs' !! file_of path = Some data
                     /\ Saved.size r = len data)
  /\ (forall fs2 r1 r2,
        decode_loop fs [att1; att2] [] = (fs2, Ok [r1; r2]) ->
        Saved.path r1 = path
        /\ Saved.path r2 = path
        /\ exists header b64data data2,
             split_max (input_url att2) (py ",") 1 = [header; b64data]
             /\ b64decode b64data = Ok data2
             /\ Saved.size r2 = len data2
             /\ fs2 !! file_of path = Some data2)
  /\ (forall header payload data,
        att_url att1
        = Some (PyStr (py "data:" ++ header ++ py "," ++ payload)) ->
        Forall (fun c => c <> 44%N) header ->
        b64decode payload = Ok data ->
        open_wb fs path = None ->
        write_wb (<[file_of path := []]> fs) path data = None ->
        exists mime,
          decode_one fs att1
          = (<[file_of path := data]> fs,
             Ok [ {| Saved.name := py "attachment"; Saved.path := path;
                     Saved.mime := mime; Saved.size := len data |} ]))
  /\ (forall header1 payload1 data1 header2 payload2 data2,
        att_url att1
        = Some (PyStr (py "data:" ++ header1 ++ py "," ++ payload1)) ->
        att_url att2
        = Some (PyStr (py "data:" ++ header2 ++ py "," ++ payload2)) ->
        Forall (fun c => c <> 44%N) header1 ->
        Forall (fun c => c <> 44%N) header2 ->
        b64decode payload1 = Ok data1 ->
        b64decode payload2 = Ok data2 ->
        open_wb fs path = None ->
        write_wb (<[file_of path := []]> fs) path data1 = None ->
        open_wb (<[file_of path := data1]> fs) path = None ->
        write_wb (<[file_of path := []]> (<[file_of path := data1]> fs))
          path data2 = None ->
        exists mime1 mime2,
          decode_loop fs [att1; att2] []
          = (<[file_of path := data2]> fs,
             Ok [ {| Saved.name := py "attachment"; Saved.path := path;
                     Saved.mime := mime1; Saved.size := len data1 |};
                  {| Saved.name := py "attachment"; Saved.path := path;
                     Saved.mime := mime2; Saved.size := len data2 |} ])).
Proof.
  intros Hn1 Hn2 path.
  assert (input_name att1 = py "attachment") as E1
    by (unfold input_name; by destruct Hn1 as [-> | ->]).
  assert (input_name att2 = py "attachment") as E2
    by (unfold input_name; by destruct Hn2 as [-> | ->]).
  split; [|split; [|split]].
  - intros fs' r Hr.
    apply decode_one_record in Hr as [?|(r' & [= <-] & _ & Hr)]; [done|].
    rewrite E1 in Hr.
    apply decode_try_ok in Hr as (hd & b64 & data & _ & _ & -> & ? & ? & ?).
    do 2 (split; [done|]). exists data. by rewrite lookup_insert_eq.
  - intros fs2 r1 r2. simpl.
    destruct (decode_one fs att1) as [fs1 [new1|e]] eqn:D1; [|done].
    destruct (decode_one fs1 att2) as [fs2' [new2|e]] eqn:D2; [|done].
    intros [= <- Hnew].
    apply decode_one_record in D1 as [->|(r & -> & _ & D1)];
      apply decode_one_record in D2 as [->|(r' & -> & _ & D2)];
      try done.
    injection Hnew as <- <-.
    rewrite E1 in D1. rewrite E2 in D2.
    apply decode_try_ok in D1 as (? & ? & ? & _ & _ & _ & _ & ? & _).
    apply decode_try_ok in D2
      as (hd & b64 & data2 & ? & ? & -> & _ & ? & ?).
    do 2 (split; [done|]). exists hd, b64, data2.
    by rewrite lookup_insert_eq.
  - intros header payload data Hu Hc Hd Ho Hw.
    by apply (decode_one_nameless fs att1 header payload data).
  - intros header1 payload1 data1 header2 payload2 data2
      Hu1 Hu2 Hc1 Hc2 Hd1 Hd2 Ho1 Hw1 Ho2 Hw2.
    destruct (decode_one_nameless fs att1 header1 payload1 data1)
      as [mime1 D1]; try done.
    destruct (decode_one_nameless (<[file_of path := data1]> fs) att2
                header2 payload2 data2) as [mime2 D2]; try done.
    exists mime1, mime2. cbn [decode_loop]. fold path in D1, D2.
    rewrite D1. rewrite app_nil_l. rewrite D2.
    by rewrite insert_insert_eq.
Qed.

End Decoder.

(** Instances on the spec's example, in the environment [demo_env]. *)



Lemma decode_default_name_witness :
  exists mime1 mime2,
    decode_loop (H := demo_env (Ok None)) ∅
      [ {| att_name := None;
           att_url := Some (PyStr (py "data:text/plain;base64,aGVsbG8=")) |};
        {| att_name := Some [];
           att_url := Some (PyStr (py "data:text/plain;base64,d29ybGQ=")) |} ]
      []
    = ({[ py "/tmp/llm_attachments/attachment" := py "world" ]},
       Ok [ {| Saved.name := py "attachment";
               Saved.path := py "/tmp/llm_attachments/attachment";
               Saved.mime := mime1; Saved.size := 5 |};
            {| Saved.name := py "attachment";
               Saved.path := py "/tmp/llm_attachments/attachment";
               Saved.mime := mime2; Saved.size := 5 |} ]).
Proof.
  destruct (decode_default_name (H := demo_env (Ok None)) ∅
              {| att_name := None;
                 att_url :=
                   Some (PyStr (py "data:text/plain;base64,aGVsbG8=")) |}
              {| att_name := Some [];
                 att_url :=
                   Some (PyStr (py "data:text/plain;base64,d29ybGQ=")) |}
              (or_introl eq_refl) (or_intror eq_refl))
    as (_ & _ & _ & Htwo).
  destruct (Htwo (py "text/plain;base64") (py "aGVsbG8=") (py "hello")
              (py "text/plain;base64") (py "d29ybGQ=") (py "world")
              eq_refl eq_refl) as (mime1 & mime2 & E).
  - apply (bool_decide_unpack _). vm_compute. reflexivity.
  - apply (bool_decide_unpack _). vm_compute. reflexivity.
  - reflexivity.
  - reflexivity.
  - reflexivity.
  - reflexivity.
  - reflexivity.
  - reflexivity.
  - exists mime1, mime2. exact E.
Defined.

(** * The attachment summarizer *)

Section Summarizer.
Context `{Env}.
Local Arguments N.eqb : simpl never.
Local Arguments len : simpl never.

Lemma readline_line l rest :
  Forall (fun c => c <> 10%N) l ->
  readline (l ++ NL ++ rest) = (l ++ NL, rest).
Proof.
  induction 1 as [|c l Hc Hl IH]; [done|].
  simpl. destruct (N.eqb_spec c 10) as [?|_]; [done|].
  simpl in IH. by rewrite IH.
Qed.

Lemma readline_last l :
  Forall (fun c => c <> 10%N) l -> readline l = (l, []).
Proof.
  induction 1 as [|c l Hc Hl IH]; [done|].
  simpl. destruct (N.eqb_spec c 10) as [?|_]; [done|]. by rewrite IH.
Qed.

Lemma lstrip_app_lf l :
  lstrip (l ++ NL) = match lstrip l with [] => [] | x => x ++ NL end.
Proof.
  induction l as [|c l IH]; [done|]. simpl. by destruct (isspace c).
Qed.

(** Trimming removes the line feed that ends a line. *)
Lemma strip_app_lf l : strip (l ++ NL) = strip l.
Proof.
  unfold strip. rewrite lstrip_app_lf.
  destruct (lstrip l) as [|c x]; [done|].
  unfold rstrip. by rewrite rev_app_distr.
Qed.

Lemma slice_prefix s n : 0 <= n -> slice s 0 n = take (Z.to_nat n) s.
Proof.
  intros Hn. unfold slice, clamp. pose proof (len_nonneg s).
  rewrite ?(proj2 (Z.ltb_ge 0 0)) by lia.
  rewrite ?(proj2 (Z.ltb_ge n 0)) by lia.
  rewrite (Z.min_l 0 (len s)) by lia. rewrite Z.sub_0_r.
  destruct (Z.le_gt_cases n (len s)).
  - by rewrite Z.min_l by lia.
  - rewrite Z.min_r by lia. unfold len in *.
    rewrite Nat2Z.id. change (Z.to_nat 0) with 0%nat. simpl drop.
    rewrite !take_ge; [done| |done].
    apply Nat2Z.inj_le. rewrite Z2Nat.id; lia.
Qed.

Lemma summarize_one_ok fs s : exists line, summarize_one fs s = Ok line.
Proof.
  unfold summarize_one. destruct (summarize_try fs s); simpl; eauto.
Qed.

Lemma summarize_loop_lines fs saved summaries :
  exists lines,
    summarize_loop fs saved summaries = Ok (summaries ++ lines)
    /\ Forall2 (fun s line => summarize_one fs s = Ok line) saved lines.
Proof.
  revert summaries. induction saved as [|s saved IH]; intros summaries.
  - exists []. split; [by rewrite app_nil_r|constructor].
  - simpl. destruct (summarize_one_ok fs s) as [line E]. rewrite E. simpl.
    destruct (IH (summaries ++ [line])) as (lines & -> & Hl).
    exists (line :: lines). split; [by rewrite <- app_assoc|].
    by constructor.
Qed.

Lemma startswith_entry nm mime tail :
  startswith (py "- " ++ nm ++ py " (" ++ mime ++ py "): " ++ tail)
    (py "- " ++ nm ++ py " (" ++ mime ++ py "): ") = true.
Proof.
  replace (py "- " ++ nm ++ py " (" ++ mime ++ py "): " ++ tail)
    with ((py "- " ++ nm ++ py " (" ++ mime ++ py "): ") ++ tail)
    by (by rewrite <- !app_assoc).
  apply startswith_app.
Qed.

(** C8: the summarizer returns for every list of records (no exception
    leaves it).  The text is the entries of the attachments joined by line
    feeds, one entry per attachment, in the order of the list; each entry
    starts with the name and the mime of its attachment; when the preview
    of an attachment cannot be read, its entry reports the error instead. *)
Theorem summarize_one_entry_each fs saved :
  exists lines,
    summarize_attachment_meta fs saved = Ok (join NL lines)
    /\ length lines = length saved
    /\ forall i s,
         saved !! i = Some s ->
         exists line,
           lines !! i = Some line
           /\ summarize_one fs s = Ok line
           /\ startswith line
                (py "- " ++ Saved.name s ++ py " (" ++ Saved.mime s
                 ++ py "): ") = true
           /\ forall e, summarize_try fs s = Raise e ->
                        line = error_entry (Saved.name s) (Saved.mime s) e.
Proof.
  destruct (summarize_loop_lines fs saved []) as (lines & E & Hl).
  exists lines. unfold summarize_attachment_meta. rewrite E. simpl.
  split; [done|]. split; [symmetry; by eapply Forall2_length|].
  intros i s Hs.
  destruct (Forall2_lookup_l _ _ _ _ _ Hl Hs) as (line & Hline & Hone).
  exists line. do 2 (split; [done|]).
  unfold summarize_one in Hone.
  destruct (summarize_try fs s) as [l|e] eqn:Et; simpl in Hone.
  - injection Hone as <-. split; [|done].
    unfold summarize_try in Et.
    destruct (_ || _).
    + destruct (open_r fs (Saved.path s)) as [f|]; [simpl in Et|done].
      destruct (if endswith (Saved.name s) (py ".csv") then _ else _)
        as [preview|]; [simpl in Et|done].
      injection Et as <-.
      exact (startswith_entry _ _ (py "preview: " ++ preview)).
    + injection Et as <-.
      exact (startswith_entry _ _ (str_of_int (Saved.size s) ++ py " bytes")).
  - injection Hone as <-. split; [|by intros e' [= <-]].
    exact (startswith_entry _ _
             (py "(could not read preview: " ++ str_of_exn e ++ py ")")).
Qed.

Lemma next_line l rest :
  Forall (fun c => c <> 10%N) l ->
  next (l ++ NL ++ rest) = Ok (l ++ NL, rest).
Proof.
  intros Hl. unfold next. rewrite readline_line by done. by destruct l.
Qed.

Lemma next_last l :
  l <> [] -> Forall (fun c => c <> 10%N) l -> next l = Ok (l, []).
Proof.
  intros Hne Hl. unfold next. rewrite readline_last by done. by destruct l.
Qed.

(** A file of ASCII bytes without carriage returns is read as it is. *)
Lemma utf8_decode_ascii bs :
  Forall (fun b => (b < 128)%N) bs -> utf8_decode_ignore bs = bs.
Proof.
  induction 1 as [|b bs Hb _ IH]; [done|].
  simpl. apply N.ltb_lt in Hb. by rewrite Hb, IH.
Qed.

Lemma universal_newlines_no_cr s :
  Forall (fun c => c <> 13%N) s -> universal_newlines s = s.
Proof.
  induction 1 as [|c s Hc _ IH]; [done|].
  simpl. destruct (N.eqb_spec c 13) as [?|_]; [done|]. by rewrite IH.
Qed.

Lemma open_r_ok fs p bytes :
  fs !! file_of p = Some bytes -> read_error fs p = None ->
  open_r fs p = Ok (universal_newlines (utf8_decode_ignore bytes)).
Proof. intros Hp He. unfold open_r. by rewrite Hp, He. Qed.

(** C7, amended: for an attachment that is previewed (its mime starts with
    [text] or its name ends in [.md], [.txt], [.json] or [.csv]) and whose
    file can be read, the entry is [- <name> (<mime>): preview: <preview>].
    The text of the file is its bytes decoded as UTF-8, undecodable bytes
    dropped, line ends read as line feeds.  For a name that does not end in
    [.csv] the preview is the first 1000 characters of the text (all of it
    if shorter); for a [.csv] file of at least three lines it is the first
    three lines, each trimmed of surrounding whitespace, joined by line
    feeds. *)
Theorem summarize_preview fs s bytes :
  previewed s = true ->
  fs !! file_of (Saved.path s) = Some bytes ->
  read_error fs (Saved.path s) = None ->
  let text := universal_newlines (utf8_decode_ignore bytes) in
  (endswith (Saved.name s) (py ".csv") = false ->
   summarize_one fs s
   = Ok (preview_entry (Saved.name s) (Saved.mime s) (take 1000 text)))
  /\ (endswith (Saved.name s) (py ".csv") = true ->
      forall l1 l2 l3 rest,
        Forall (fun c => c <> 10%N) l1 ->
        Forall (fun c => c <> 10%N) l2 ->
        Forall (fun c => c <> 10%N) l3 ->
        text = l1 ++ NL ++ l2 ++ NL ++ l3 ++ NL ++ rest
        \/ (text = l1 ++ NL ++ l2 ++ NL ++ l3 /\ l3 <> []) ->
        summarize_one fs s
        = Ok (preview_entry (Saved.name s) (Saved.mime s)
                (strip l1 ++ NL ++ strip l2 ++ NL ++ strip l3))).
Proof.
  intros Hq Hp He text. unfold summarize_one, summarize_try.
  fold (previewed s). rewrite Hq. rewrite (open_r_ok _ _ _ Hp He).
  fold text. rewrite bind_Ok. split.
  - intros ->. rewrite bind_Ok. unfold try_except, preview_entry.
    do 6 f_equal. unfold read, fst.
    rewrite replace_same, slice_prefix by lia.
    rewrite take_take, Nat.min_id. by change (Z.to_nat 1000) with 1000%nat.
  - intros -> l1 l2 l3 rest H1 H2 H3 Ht.
    assert (next_stripped 3 text = Ok [strip l1; strip l2; strip l3]) as ->.
    { unfold next_stripped.
      destruct Ht as [->|[-> Hne]].
      - rewrite next_line, bind_Ok by done. unfold fst, snd.
        rewrite next_line, bind_Ok by done. unfold fst, snd.
        rewrite next_line, bind_Ok by done. unfold fst, snd.
        rewrite !bind_Ok. by rewrite !strip_app_lf.
      - rewrite next_line, bind_Ok by done. unfold fst, snd.
        rewrite next_line, bind_Ok by done. unfold fst, snd.
        rewrite next_last, bind_Ok by done. unfold fst, snd.
        rewrite !bind_Ok. by rewrite !strip_app_lf. }
    by rewrite !bind_Ok.
Qed.

End Summarizer.

(** C7, as stated, fails: the lines of a CSV preview are trimmed, not
    verbatim.  A file [x.csv] whose first line starts with a space is
    previewed without that space. *)
Lemma summarize_csv_not_verbatim :
  previewed {| Saved.name := py "x.csv"; Saved.path := py "/tmp/x.csv";
               Saved.mime := py "text/csv"; Saved.size := 7 |} = true
  /\ summarize_one (H := demo_env (Ok None))
       {[ py "/tmp/x.csv" := py " a
b
c
" ]}
       {| Saved.name := py "x.csv"; Saved.path := py "/tmp/x.csv";
          Saved.mime := py "text/csv"; Saved.size := 7 |}
     = Ok (py "- x.csv (text/csv): preview: a
b
c")
  /\ preview_entry (py "x.csv") (py "text/csv")
       (first_lines_verbatim 3 (py " a
b
c
"))
     = py "- x.csv (text/csv): preview:  a
b
c"
  /\ summarize_one (H := demo_env (Ok None))
       {[ py "/tmp/x.csv" := py " a
b
c
" ]}
       {| Saved.name := py "x.csv"; Saved.path := py "/tmp/x.csv";
          Saved.mime := py "text/csv"; Saved.size := 7 |}
     <> Ok (preview_entry (py "x.csv") (py "text/csv")
              (first_lines_verbatim 3 (py " a
b
c
"))).
Proof.
  split; [reflexivity|]. split; [reflexivity|]. split; [reflexivity|].
  by vm_compute.
Qed.

Lemma summarize_preview_witness :
  summarize_one (H := demo_env (Ok None))
    {[ py "/tmp/llm_attachments/a.txt" := py "hello" ]}
    {| Saved.name := py "a.txt";
       Saved.path := py "/tmp/llm_attachments/a.txt";
       Saved.mime := py "text/plain"; Saved.size := 5 |}
  = Ok (py "- a.txt (text/plain): preview: hello")
  /\ summarize_one (H := demo_env (Ok None))
       {[ py "/tmp/x.csv" := py " a
b
c
" ]}
       {| Saved.name := py "x.csv"; Saved.path := py "/tmp/x.csv";
          Saved.mime := py "text/csv"; Saved.size := 7 |}
     = Ok (py "- x.csv (text/csv): preview: a
b
c").
Proof.
  split.
  - refine (proj1 (summarize_preview (H := demo_env (Ok None))
                     {[ py "/tmp/llm_attachments/a.txt" := py "hello" ]}
                     {| Saved.name := py "a.txt";
                        Saved.path := py "/tmp/llm_attachments/a.txt";
                        Saved.mime := py "text/plain"; Saved.size := 5 |}
                     (py "hello") _ _ _) _).
    + reflexivity.
    + vm_compute. reflexivity.
    + reflexivity.
    + reflexivity.
  - refine (proj2 (summarize_preview (H := demo_env (Ok None))
                     {[ py "/tmp/x.csv" := py " a
b
c
" ]}
                     {| Saved.name := py "x.csv"; Saved.path := py "/tmp/x.csv";
                        Saved.mime := py "text/csv"; Saved.size := 7 |}
                     (py " a
b
c
") _ _ _) _ (py " a") (py "b") (py "c") [] _ _ _ _).
    + reflexivity.
    + vm_compute. reflexivity.
    + reflexivity.
    + reflexivity.
    + by repeat constructor.
    + by repeat constructor.
    + by repeat constructor.
    + left. reflexivity.
Defined.

Lemma summarize_one_entry_each_witness :
  summarize_attachment_meta (H := demo_env (Ok None))
    {[ py "/tmp/llm_attachments/a.txt" := py "hello" ]}
    [ {| Saved.name := py "a.txt";
         Saved.path := py "/tmp/llm_attachments/a.txt";
         Saved.mime := py "text/plain"; Saved.size := 5 |};
      {| Saved.name := py "logo.png";
         Saved.path := py "/tmp/llm_attachments/logo.png";
         Saved.mime := py "image/png"; Saved.size := 10 |};
      {| Saved.name := py "gone.md";
         Saved.path := py "/tmp/llm_attachments/gone.md";
         Saved.mime := py "text/markdown"; Saved.size := 3 |} ]
  = Ok (py "- a.txt (text/plain): preview: hello
- logo.png (image/png): 10 bytes
- gone.md (text/markdown): (could not read preview: [Errno 2] No such file or directory: '/tmp/llm_attachments/gone.md')").
Proof.
  destruct (summarize_one_entry_each (H := demo_env (Ok None))
              {[ py "/tmp/llm_attachments/a.txt" := py "hello" ]}
              [ {| Saved.name := py "a.txt";
                   Saved.path := py "/tmp/llm_attachments/a.txt";
                   Saved.mime := py "text/plain"; Saved.size := 5 |};
                {| Saved.name := py "logo.png";
                   Saved.path := py "/tmp/llm_attachments/logo.png";
                   Saved.mime := py "image/png"; Saved.size := 10 |};
                {| Saved.name := py "gone.md";
                   Saved.path := py "/tmp/llm_attachments/gone.md";
                   Saved.mime := py "text/markdown"; Saved.size := 3 |} ])
    as (lines & E & Hlen & Hall).
  rewrite E. f_equal.
  destruct (Hall 0%nat _ eq_refl) as (l0 & H0 & E0 & _).
  destruct (Hall 1%nat _ eq_refl) as (l1 & H1 & E1 & _).
  destruct (Hall 2%nat _ eq_refl) as (l2 & H2 & E2 & _).
  destruct lines as [|x0 [|x1 [|x2 [|x3 lines]]]]; try discriminate Hlen.
  injection H0 as ->. injection H1 as ->. injection H2 as ->.
  injection E0 as <-. injection E1 as <-. injection E2 as <-.
  reflexivity.
Defined.

(** A CSV file of fewer than three lines has no preview: [next] raises
    [StopIteration], whose text is empty. *)
Example summarize_csv_two_lines :
  summarize_one (H := demo_env (Ok None))
    {[ py "/tmp/x.csv" := py "a,b
1,2
" ]}
    {| Saved.name := py "x.csv"; Saved.path := py "/tmp/x.csv";
       Saved.mime := py "text/csv"; Saved.size := 8 |}
  = Ok (py "- x.csv (text/csv): (could not read preview: )").
Proof. reflexivity. Qed.

(** Undecodable bytes are dropped from a preview, and CR LF is read as a
    line feed. *)
Example summarize_undecodable_dropped :
  summarize_one (H := demo_env (Ok None))
    {[ py "/tmp/n.txt" := [255; 104; 105; 13; 10; 195; 169; 192]%N ]}
    {| Saved.name := py "n.txt"; Saved.path := py "/tmp/n.txt";
       Saved.mime := py "text/plain"; Saved.size := 8 |}
  = Ok (py "- n.txt (text/plain): preview: hi" ++ [10; 233]%N).
Proof. reflexivity. Qed.

(** * The orchestrator *)

Section Orchestrator.
Context `{Env}.
Local Arguments N.eqb : simpl never.
Local Arguments len : simpl never.

(** [str(n)] is a sign and digits: no backtick. *)
Lemma uint_no_tick d :
  Forall (fun c => c <> TICK) (py (NilEmpty.string_of_uint d)).
Proof.
  induction d; simpl; try (by constructor); by constructor.
Qed.

Lemma str_of_int_no_tick n : Forall (fun c => c <> TICK) (str_of_int n).
Proof.
  unfold str_of_int, NilZero.string_of_int.
  destruct (Z.to_int n) as [d|d]; unfold NilZero.string_of_uint.
  - destruct d; try apply uint_no_tick. by repeat constructor.
  - change (py (String "-" ?x)) with (45%N :: py x).
    constructor; [done|].
    destruct d; try apply uint_no_tick. by repeat constructor.
Qed.

Lemma tickless_scans k s :
  Forall (fun c => c <> TICK) s -> is_Some (ticks k s).
Proof.
  intros Hs. destruct s as [|c s]; [by eexists|].
  rewrite ticks_no_tick; [by eexists|done|done].
Qed.

Lemma fence_free_scans s : fence_free s = true -> is_Some (ticks 0 s).
Proof.
  unfold fence_free. intros Hs. apply negb_true_iff in Hs.
  apply no_fence_ticks; [lia|]. by apply contains_false_iff.
Qed.

(** A fixed text that resets the scanner (it holds no fence, starts and
    ends with a character that is not a backtick) isolates what is around
    it. *)
Lemma ticks_reset lit k x :
  (forall m, ticks m lit = Some 0%nat) -> ticks k (lit ++ x) = ticks 0 x.
Proof. intros Hl. by rewrite ticks_app, Hl. Qed.

Lemma ticks_over s lit x :
  is_Some (ticks 0 s) -> (forall m, ticks m lit = Some 0%nat) ->
  ticks 0 (s ++ lit ++ x) = ticks 0 x.
Proof.
  intros [m Hm] Hl. rewrite ticks_app, Hm. simpl. by apply ticks_reset.
Qed.

Lemma fallback_text_blocks brief checks meta round_num :
  fallback_text brief checks meta round_num
  = NL ++ fenced (py "html")
            (FALLBACK_HTML_HEAD ++ brief ++ FALLBACK_HTML_TAIL)
    ++ NL ++ fenced (py "markdown")
               (generate_readme_fallback brief checks (Some meta) round_num
                ++ NL)
    ++ NL.
Proof.
  unfold fallback_text, fenced. rewrite <- !app_assoc. reflexivity.
Qed.

Lemma clean_fallback_html brief :
  fence_free brief = true ->
  clean (FALLBACK_HTML_HEAD ++ brief ++ FALLBACK_HTML_TAIL).
Proof.
  intros Hb. unfold clean.
  rewrite ticks_reset by (intros m; reflexivity).
  replace (brief ++ FALLBACK_HTML_TAIL)
    with (brief ++ FALLBACK_HTML_TAIL ++ []) by (by rewrite app_nil_r).
  rewrite ticks_over; [done|by apply fence_free_scans|].
  intros m. reflexivity.
Qed.

Lemma clean_fallback_readme brief checks meta round_num :
  fence_free brief = true ->
  fence_free (join NL (default [] checks)) = true ->
  fence_free meta = true ->
  clean (generate_readme_fallback brief checks (Some meta) round_num ++ NL).
Proof.
  intros Hb Hc Hm. unfold clean, generate_readme_fallback.
  rewrite <- !app_assoc.
  rewrite ticks_reset by (intros m; reflexivity).
  rewrite ticks_over;
    [|apply tickless_scans, str_of_int_no_tick|intros m; reflexivity].
  rewrite ticks_over; [|by apply fence_free_scans|intros m; reflexivity].
  rewrite ticks_over; [|apply fence_free_scans; by destruct meta
                       |intros m; reflexivity].
  rewrite ticks_over; [|by apply fence_free_scans|intros m; reflexivity].
  reflexivity.
Qed.

(** What the extractor takes from the text substituted when the call
    fails. *)
Lemma extract_fallback_text brief checks meta round_num :
  fence_free brief = true ->
  fence_free (join NL (default [] checks)) = true ->
  fence_free meta = true ->
  extract_parts (fallback_text brief checks meta round_num)
    brief checks meta round_num
  = Ok (strip (FALLBACK_HTML_HEAD ++ brief ++ FALLBACK_HTML_TAIL),
        strip (generate_readme_fallback brief checks (Some meta) round_num
               ++ NL)).
Proof.
  intros Hb Hc Hm. rewrite fallback_text_blocks.
  apply extract_parts_blocks; try done.
  - by apply clean_fallback_html.
  - by apply clean_fallback_readme.
  - by right.
  - by right.
Qed.

Lemma files_lookup (code readme : pystr) :
  ({[ py "index.html" := code; py "README.md" := readme ]} : gmap pystr pystr)
    !! py "index.html" = Some code
  /\ ({[ py "index.html" := code; py "README.md" := readme ]}
        : gmap pystr pystr) !! py "README.md" = Some readme.
Proof.
  split; [apply lookup_insert_eq|].
  rewrite lookup_insert_ne by done. apply lookup_singleton_eq.
Qed.

Lemma summarize_attachment_meta_ok fs saved :
  exists meta, summarize_attachment_meta fs saved = Ok meta.
Proof.
  destruct (summarize_loop_lines fs saved []) as (lines & E & _).
  unfold summarize_attachment_meta. rewrite E. by eexists.
Qed.

Lemma decode_attachments_ok fs attachments :
  Forall (fun att => str_url att = true) (default [] attachments) ->
  exists fs' saved, decode_attachments fs attachments = (fs', Ok saved).
Proof.
  intros Hs.
  destruct (decode_loop_ok fs (default [] attachments) [] Hs)
    as (fs' & new & E & _).
  by exists fs', new.
Qed.

(** [generate_app_code] once the attachments are decoded and summarized. *)
Lemma generate_app_code_unfold fs brief atts checks round_num
    prev_readme fs' saved meta :
  decode_attachments fs (Some (default [] atts)) = (fs', Ok saved) ->
  summarize_attachment_meta fs' saved = Ok meta ->
  generate_app_code fs brief atts checks round_num prev_readme
  = (fs',
     text ← try_except
              (call_gemini
                 (user_prompt brief checks meta round_num prev_readme))
              (fun e => Ok (fallback_text brief checks meta round_num));
     parts ← extract_parts text brief checks meta round_num;
     Ok {| files := {[ py "index.html" := fst parts;
                       py "README.md" := snd parts ]};
           attachments := saved |}).
Proof.
  intros Hd Hs. unfold generate_app_code. rewrite Hd.
  by rewrite bind_Ok, Hs, bind_Ok.
Qed.

End Orchestrator.

(** * Further properties of the block-stripping step *)

Section StripCodeBlockMore.
Local Arguments N.eqb : simpl never.
Local Arguments len : simpl never.

Lemma lstrip_idem s : lstrip (lstrip s) = lstrip s.
Proof.
  induction s as [|c s IH]; [done|]. simpl.
  destruct (isspace c) eqn:E; [done|]. simpl. by rewrite E.
Qed.

Lemma lstrip_head s c r : lstrip s = c :: r -> isspace c = false.
Proof.
  induction s as [|d s IH]; [done|]. simpl.
  destruct (isspace d) eqn:E; [done|]. by intros [= <- _].
Qed.

Lemma lstrip_nonspace c s : isspace c = false -> lstrip (c :: s) = c :: s.
Proof. intros E. simpl. by rewrite E. Qed.

Lemma lstrip_snoc_nonspace l c :
  isspace c = false -> exists l', lstrip (l ++ [c]) = l' ++ [c].
Proof.
  intros Hc. induction l as [|d l [l' IH]].
  - exists []. simpl. by rewrite Hc.
  - simpl. destruct (isspace d); [by exists l'|by exists (d :: l)].
Qed.

Lemma rstrip_snoc_nonspace l c :
  isspace c = false -> rstrip (l ++ [c]) = l ++ [c].
Proof.
  intros Hc. unfold rstrip. rewrite rev_app_distr. simpl.
  rewrite Hc. simpl. by rewrite rev_involutive.
Qed.

Lemma rstrip_keeps_head c s :
  isspace c = false -> exists r, rstrip (c :: s) = c :: r.
Proof.
  intros Hc. unfold rstrip. simpl.
  destruct (lstrip_snoc_nonspace (rev s) c Hc) as [l' ->].
  rewrite rev_app_distr. simpl. by eexists.
Qed.

Lemma rstrip_idem s : rstrip (rstrip s) = rstrip s.
Proof. unfold rstrip. by rewrite rev_involutive, lstrip_idem. Qed.

Lemma rstrip_last s l c : rstrip s = l ++ [c] -> isspace c = false.
Proof.
  unfold rstrip. intros E. apply (f_equal (@rev N)) in E.
  rewrite rev_involutive, rev_app_distr in E. simpl in E.
  by apply lstrip_head in E.
Qed.

(** What [strip] returns is trimmed: stripping it again changes nothing,
    and it neither starts nor ends with a space. *)
Lemma strip_trimmed s :
  strip (strip s) = strip s
  /\ (forall c r, strip s = c :: r -> isspace c = false)
  /\ (forall l c, strip s = l ++ [c] -> isspace c = false).
Proof.
  unfold strip. destruct (lstrip s) as [|c x] eqn:E.
  { split; [done|]. split; [done|]. intros l c E'. by destruct l. }
  pose proof (lstrip_head _ _ _ E) as Hc.
  destruct (rstrip_keeps_head c x Hc) as [r Hr]. rewrite Hr.
  split; [|split].
  - rewrite lstrip_nonspace by done. rewrite <- Hr. apply rstrip_idem.
  - by intros c' r' [= <- _].
  - intros l c' E'. rewrite <- Hr in E'. by apply rstrip_last in E'.
Qed.

(** The last occurrence: no occurrence of [sub] starts after the one
    written after [a]. *)
Lemma rfind_at_none s sub i :
  (forall j, startswith (drop j s) sub = false) -> rfind_at s sub i = -1.
Proof.
  revert i. induction s as [|c s IH]; intros i Hno;
    pose proof (Hno 0%nat) as H0; simpl in H0.
  - simpl. by rewrite H0.
  - simpl. rewrite IH by (intros j; apply (Hno (S j))). simpl.
    by rewrite H0.
Qed.

Lemma rfind_at_last a sub b i :
  0 <= i ->
  (forall j, startswith (drop (S j) (sub ++ b)) sub = false) ->
  rfind_at (a ++ sub ++ b) sub i = i + len a.
Proof.
  intros Hi Hno. revert i Hi. induction a as [|c a IH]; intros i Hi.
  - rewrite app_nil_l. destruct (sub ++ b) as [|c s] eqn:E.
    + destruct sub; [|done]. simpl in E. subst b.
      by specialize (Hno 0%nat).
    + simpl. rewrite rfind_at_none by done. simpl.
      rewrite <- E, startswith_app. change (@len N []) with 0. lia.
  - change ((c :: a) ++ sub ++ b) with (c :: (a ++ sub ++ b)). simpl.
    rewrite IH by lia. pose proof (len_nonneg a).
    rewrite (proj2 (Z.eqb_neq _ _)) by lia. rewrite len_cons. lia.
Qed.

(** The scanner is exact: a text it scans to the end holds no fence. *)
Lemma ticks_no_occ k s :
  (k <= 2)%nat -> is_Some (ticks k s) ->
  forall j, startswith (drop j (replicate k TICK ++ s)) FENCE = false.
Proof.
  revert k. induction s as [|c s IH]; intros k Hk Hs j.
  - apply startswith_short. rewrite length_drop, length_app, length_replicate.
    simpl. lia.
  - simpl in Hs. destruct (N.eqb_spec TICK c) as [<-|Hc].
    + destruct (k <? 2)%nat eqn:E; [|by destruct Hs].
      apply Nat.ltb_lt in E.
      replace (replicate k TICK ++ TICK :: s)
        with (replicate (S k) TICK ++ s)
        by (by rewrite replicate_S_end, <- app_assoc).
      apply IH; [lia|done].
    + destruct (decide (j <= k)%nat) as [Hj|Hj].
      * rewrite drop_app_le by (rewrite length_replicate; lia).
        rewrite drop_replicate.
        assert (k - j <= 2)%nat as Hm by lia.
        assert (N.eqb TICK c = false) as Hf by (by apply N.eqb_neq).
        rewrite FENCE_eq.
        destruct (k - j)%nat as [|[|[|m]]]; simpl; rewrite ?N.eqb_refl, ?Hf;
          [done|done|done|lia].
      * rewrite drop_app_ge by (rewrite length_replicate; lia).
        rewrite length_replicate.
        replace (j - k)%nat with (S (j - k - 1)) by lia. simpl.
        apply (IH 0%nat); [lia|done].
Qed.

Lemma fence_free_iff_scans s :
  fence_free s = true <-> is_Some (ticks 0 s).
Proof.
  unfold fence_free. rewrite negb_true_iff, contains_false_iff. split.
  - intros Hno. apply no_fence_ticks; [lia|done].
  - intros Hs j. apply (ticks_no_occ 0 s); [lia|done].
Qed.

(** After a text that holds no fence and does not start with a backtick, a
    fence written before it is the last one. *)
Lemma fence_last post :
  fence_free post = true -> startswith post [TICK] = false ->
  forall j, startswith (drop (S j) (FENCE ++ post)) FENCE = false.
Proof.
  intros Hf Hs j.
  change (drop (S j) (FENCE ++ post))
    with (drop j (replicate 2 TICK ++ post)).
  apply ticks_no_occ; [lia|].
  apply fence_free_iff_scans in Hf.
  destruct post as [|c r]; [by eexists|].
  simpl in Hs. rewrite andb_true_r in Hs. simpl in Hf |- *.
  by rewrite Hs in Hf |- *.
Qed.

Lemma find_from_absent s x start :
  Forall (fun c => c <> x) s -> find_from s [x] start = -1.
Proof.
  intros Hs. unfold find_from. destruct (len s <? start); [done|].
  destruct (find_at_cases (drop (Z.to_nat (clamp s start)) s) [x]
              (clamp s start)) as [[Hf _]|(a & b & E & _ & _)]; [done|].
  apply (Forall_drop _ (Z.to_nat (clamp s start))) in Hs. rewrite E in Hs.
  apply Forall_app in Hs as [_ Hs]. apply Forall_app in Hs as [Hs _].
  by apply Forall_cons in Hs as [Hx _].
Qed.

(** X1: [_strip_code_block] raises exactly on a text that ends right after
    its first fence, and what it raises is the [IndexError] of
    [text[start]]. *)
Theorem strip_code_block_raises text :
  ((exists e, _strip_code_block text = Raise e) <->
   contains text FENCE = true /\ find text FENCE + 3 = len text)
  /\ (forall e, _strip_code_block text = Raise e ->
        e = IndexError (py "string index out of range")).
Proof.
  split; [apply strip_code_block_raises_iff|].
  unfold _strip_code_block. intros e.
  destruct (contains text FENCE); [|done].
  destruct (getitem text (find text FENCE + 3)) as [c|]; [|by intros [= <-]].
  by destruct (_ >? _).
Qed.

Lemma strip_code_block_raises_witness :
  exists e, _strip_code_block (py "Here is the app:```") = Raise e.
Proof.
  apply (proj2 (proj1 (strip_code_block_raises (py "Here is the app:```")))).
  split; reflexivity.
Defined.

Lemma strip_code_block_is_strip text r :
  _strip_code_block text = Ok r -> exists s, r = strip s.
Proof.
  unfold _strip_code_block. intros Hr.
  destruct (contains text FENCE); [|injection Hr as <-; by eexists].
  destruct (getitem text (find text FENCE + 3)) as [c|]; [|done].
  destruct (_ >? _); injection Hr as <-; by eexists.
Qed.

(** X2: what [_strip_code_block] returns is trimmed: it neither starts nor
    ends with a whitespace character, and stripping it again changes
    nothing. *)
Theorem strip_code_block_trimmed text r :
  _strip_code_block text = Ok r ->
  strip r = r
  /\ (forall c, head r = Some c -> isspace c = false)
  /\ (forall c, last r = Some c -> isspace c = false).
Proof.
  intros Hr. apply strip_code_block_is_strip in Hr as [s ->].
  destruct (strip_trimmed s) as (Hi & Hh & Hl).
  split; [done|]. split.
  - intros c Hc. destruct (strip s) as [|d x] eqn:E; [done|].
    injection Hc as ->. by eapply Hh.
  - intros c Hc. apply last_Some in Hc as [l Hc]. by eapply Hl.
Qed.

Lemma strip_code_block_trimmed_witness :
  strip (py "<p>hi</p>") = py "<p>hi</p>"
  /\ (forall c, head (py "<p>hi</p>") = Some c -> isspace c = false)
  /\ (forall c, last (py "<p>hi</p>") = Some c -> isspace c = false).
Proof.
  apply (strip_code_block_trimmed (py "Sure!
```html

  <p>hi</p>

```
Enjoy.")).
  reflexivity.
Defined.

(** X3: on a text with one fenced block and prose around it, what is before
    the first fence and after the last one is discarded and the inner
    content is returned trimmed, whatever it holds (fences included).  The
    text before holds no fence and does not end with a backtick, the tag
    line holds no line feed, the text after holds no fence and does not
    start with a backtick; a block with a tag has a non-empty content. *)
Theorem strip_code_block_in_prose pre tag body post :
  is_content pre = true ->
  Forall (fun c => c <> 10%N) tag ->
  fence_free post = true -> startswith post [TICK] = false ->
  tag = [] \/ body <> [] ->
  _strip_code_block (pre ++ fenced tag body ++ post) = Ok (strip body).
Proof.
  intros Hpre Htag Hpost Hpost' Hcase. unfold fenced, _strip_code_block.
  rewrite <- !app_assoc.
  rewrite contains_app, clean_find by (by apply is_content_clean).
  pose proof (len_nonneg pre). pose proof (len_nonneg tag).
  pose proof (len_nonneg body).
  assert (rfind (pre ++ FENCE ++ tag ++ NL ++ body ++ FENCE ++ post) FENCE
          = len (pre ++ FENCE ++ tag ++ NL) + len body) as ->.
  { replace (pre ++ FENCE ++ tag ++ NL ++ body ++ FENCE ++ post)
      with ((pre ++ FENCE ++ tag ++ NL ++ body) ++ FENCE ++ post)
      by (by rewrite <- !app_assoc).
    unfold rfind. rewrite rfind_at_last; [|lia|by apply fence_last].
    rewrite !len_app. lia. }
  replace (len pre + 3) with (len (pre ++ FENCE))
    by (rewrite len_app; change (len FENCE) with 3; lia).
  replace (pre ++ FENCE ++ tag ++ NL ++ body ++ FENCE ++ post)
    with ((pre ++ FENCE) ++ tag ++ NL ++ body ++ FENCE ++ post)
    by (by rewrite <- !app_assoc).
  destruct tag as [|t tag].
  - change ([] ++ NL ++ body ++ FENCE ++ post)
      with (10%N :: body ++ FENCE ++ post).
    rewrite getitem_app. simpl negb. cbv iota.
    rewrite (proj2 (Z.gtb_gt _ _))
      by (rewrite !len_app; change (len NL) with 1; lia).
    rewrite <- (strip_lf body). f_equal. f_equal.
    change (10%N :: body ++ FENCE ++ post)
      with ((NL ++ body) ++ FENCE ++ post).
    replace (len (pre ++ FENCE ++ [] ++ NL) + len body)
      with (len (pre ++ FENCE) + len (NL ++ body))
      by (rewrite !len_app; change (@len N []) with 0; lia).
    apply slice_app.
  - destruct Hcase as [?|Hbody]; [done|].
    pose proof Htag as Htag'. apply Forall_cons in Htag' as [Ht _].
    change ((t :: tag) ++ NL ++ body ++ FENCE ++ post)
      with (t :: tag ++ NL ++ body ++ FENCE ++ post).
    rewrite getitem_app.
    destruct (N.eqb_spec t 10) as [?|_]; [done|]. simpl negb. cbv iota.
    change (t :: tag ++ NL ++ body ++ FENCE ++ post)
      with ((t :: tag) ++ NL ++ body ++ FENCE ++ post).
    rewrite find_from_app by (by apply line_no_lf).
    assert (0 < len body).
    { destruct body as [|b body]; [done|]. rewrite len_cons.
      pose proof (len_nonneg body). lia. }
    rewrite (proj2 (Z.gtb_gt _ _))
      by (rewrite !len_app; change (len NL) with 1; lia).
    f_equal. f_equal.
    replace ((pre ++ FENCE) ++ (t :: tag) ++ NL ++ body ++ FENCE ++ post)
      with (((pre ++ FENCE) ++ (t :: tag) ++ NL) ++ body ++ FENCE ++ post)
      by (by rewrite <- !app_assoc).
    replace (len (pre ++ FENCE) + len (t :: tag) + 1)
      with (len ((pre ++ FENCE) ++ (t :: tag) ++ NL))
      by (rewrite !len_app; change (len NL) with 1; lia).
    replace (len (pre ++ FENCE ++ (t :: tag) ++ NL))
      with (len ((pre ++ FENCE) ++ (t :: tag) ++ NL))
      by (by rewrite <- !app_assoc).
    apply slice_app.
Qed.

Lemma strip_code_block_in_prose_witness :
  _strip_code_block (py "Sure, here it is:
```markdown
# Doc
```js
x
```
done
```
Enjoy.") = Ok (py "# Doc
```js
x
```
done").
Proof.
  apply (strip_code_block_in_prose (py "Sure, here it is:
") (py "markdown") (py "# Doc
```js
x
```
done
") (py "
Enjoy.")).
  - reflexivity.
  - by repeat constructor.
  - reflexivity.
  - reflexivity.
  - by right.
Defined.

(** A rebuilt fence whose segment holds no line feed. *)
Lemma strip_code_block_no_lf p :
  Forall (fun c => c <> 10%N) p ->
  _strip_code_block (FENCE ++ p ++ FENCE) = Ok (strip (FENCE ++ p)).
Proof.
  intros Hp. unfold _strip_code_block.
  rewrite contains_prefix, find_prefix. change (0 + 3) with (len FENCE).
  assert (exists c r, p ++ FENCE = c :: r /\ c <> 10%N) as (c & r & E & Hc).
  { destruct p as [|c p]; [by exists TICK, [TICK; TICK]|].
    apply Forall_cons in Hp as [Hc _]. by exists c, (p ++ FENCE). }
  rewrite E, getitem_app, <- E.
  destruct (N.eqb_spec c 10) as [?|_]; [done|]. simpl negb. cbv iota.
  change NL with [10%N]. rewrite find_from_absent
    by (rewrite !Forall_app; repeat split; [by repeat constructor|done|
        by repeat constructor]).
  rewrite (app_assoc FENCE p FENCE), rfind_suffix by done.
  pose proof (len_nonneg p).
  rewrite (proj2 (Z.gtb_gt _ _))
    by (rewrite len_app; change (len FENCE) with 3; lia).
  f_equal. f_equal. rewrite slice_prefix by apply len_nonneg.
  unfold len. by rewrite Nat2Z.id, take_app_length.
Qed.

(** X4: a fence rebuilt from a segment without a line feed keeps its
    opening fence: the search for the end of the tag line finds nothing,
    the content start falls back to the start of the text, and only the
    closing fence is removed. *)
Theorem strip_code_block_one_line p :
  Forall (fun c => c <> 10%N) p ->
  _strip_code_block (FENCE ++ p ++ FENCE) = Ok (strip (FENCE ++ p)).
Proof. apply strip_code_block_no_lf. Qed.

Lemma strip_code_block_one_line_witness :
  _strip_code_block (py "```<p>hi</p>```") = Ok (py "```<p>hi</p>").
Proof.
  apply (strip_code_block_one_line (py "<p>hi</p>")).
  by repeat constructor.
Defined.

End StripCodeBlockMore.

(** * Further properties of the extractor and of the orchestrator *)

Section ExtractorMore.
Context `{Env}.
Local Arguments N.eqb : simpl never.
Local Arguments len : simpl never.

(** X5: when the split yields five segments or more the extractor always
    returns; both texts are trimmed, and they do not depend on the brief,
    the checks, the attachment summary or the round. *)
Theorem extract_parts_many_segments text brief checks meta round_num :
  5 <= len (split text FENCE) ->
  exists code readme,
    extract_parts text brief checks meta round_num = Ok (code, readme)
    /\ strip code = code /\ strip readme = readme
    /\ forall brief' checks' meta' round_num',
         extract_parts text brief' checks' meta' round_num'
         = Ok (code, readme).
Proof.
  intros Hl. unfold extract_parts. rewrite (proj2 (Z.leb_le _ _)) by done.
  destruct (split text FENCE) as [|p0 [|p1 [|p2 [|p3 l]]]] eqn:Es;
    try (by rewrite ?len_cons in Hl; change (@len pystr []) with 0 in Hl; lia).
  destruct (strip_code_block_rebuilt p1) as [code E1].
  destruct (strip_code_block_rebuilt p3) as [readme E3].
  exists code, readme. rewrite E1, E3. split; [done|].
  apply strip_code_block_is_strip in E1 as [s1 ->].
  apply strip_code_block_is_strip in E3 as [s3 ->].
  split; [apply strip_trimmed|]. split; [apply strip_trimmed|done].
Qed.

Lemma extract_parts_many_segments_witness :
  exists code readme,
    extract_parts (py "a```b```c```d```e```f") [] None [] 1
    = Ok (code, readme)
    /\ strip code = code /\ strip readme = readme
    /\ forall brief' checks' meta' round_num',
         extract_parts (py "a```b```c```d```e```f") brief' checks' meta'
           round_num' = Ok (code, readme).
Proof.
  apply (extract_parts_many_segments (py "a```b```c```d```e```f")).
  by vm_compute.
Defined.

(** X6: only the first two blocks count.  For two well-formed blocks, each
    with a content that is not empty or without a language tag, whatever
    follows the second block (further blocks, any text) does not change
    what the extractor returns: the trimmed contents of the two blocks.
    (A block with a tag and an empty content is returned as the whole
    rebuilt fence, see C3.) *)
Theorem extract_parts_ignores_rest pre tag1 body1 mid tag2 body2 post
    brief checks meta round_num :
  is_content pre = true -> is_content mid = true ->
  is_tag tag1 = true -> is_content body1 = true ->
  is_tag tag2 = true -> is_content body2 = true ->
  tag1 = [] \/ body1 <> [] ->
  tag2 = [] \/ body2 <> [] ->
  extract_parts
    (pre ++ fenced tag1 body1 ++ mid ++ fenced tag2 body2 ++ post)
    brief checks meta round_num
  = Ok (strip body1, strip body2).
Proof.
  intros Hpre Hmid Ht1 Hb1 Ht2 Hb2 H1 H2.
  apply extract_parts_blocks; try done; by apply is_content_clean.
Qed.

Lemma extract_parts_ignores_rest_witness :
  extract_parts (py "```html
<p>hi</p>
```
```markdown
# Doc
```
```css
p { color: red }
```
and more ```") [] None [] 1 = Ok (py "<p>hi</p>", py "# Doc").
Proof.
  apply (extract_parts_ignores_rest [] (py "html") (py "<p>hi</p>
") NL (py "markdown") (py "# Doc
") (py "
```css
p { color: red }
```
and more ```")); try reflexivity; by right.
Defined.

Lemma contains_mono a s sub b :
  contains s sub = true -> contains (a ++ s ++ b) sub = true.
Proof.
  unfold contains, find. intros Hc.
  destruct (find_at_cases s sub 0) as [[Hf _]|(x & y & -> & _ & _)];
    [by rewrite Hf in Hc|].
  replace (a ++ (x ++ sub ++ y) ++ b) with ((a ++ x) ++ sub ++ (y ++ b))
    by (by rewrite <- !app_assoc).
  apply contains_app.
Qed.

Lemma fence_free_app_inv a s b :
  fence_free (a ++ s ++ b) = true -> fence_free s = true.
Proof.
  unfold fence_free. rewrite !negb_true_iff. intros Hf.
  destruct (contains s FENCE) eqn:E; [|done].
  by rewrite (contains_mono a s FENCE b E) in Hf.
Qed.

(** X7: the fallback README holds a fence exactly when the brief, the
    checks joined by line feeds or the attachment summary holds one; with
    inputs free of fences it can be wrapped in a fence. *)
Theorem generate_readme_fallback_fence_free brief checks meta round_num :
  fence_free (generate_readme_fallback brief checks (Some meta) round_num)
  = true
  <-> fence_free brief = true
      /\ fence_free (join NL (default [] checks)) = true
      /\ fence_free meta = true.
Proof.
  split.
  - intros Hf. unfold generate_readme_fallback in Hf.
    assert (str_or (Some meta) [] = meta) as Em by (by destruct meta).
    rewrite Em in Hf. split; [|split].
    + rewrite !(app_assoc _ _ (brief ++ _)) in Hf.
      by apply fence_free_app_inv in Hf.
    + rewrite !(app_assoc _ _ (join NL (default [] checks) ++ _)) in Hf.
      by apply fence_free_app_inv in Hf.
    + rewrite !(app_assoc _ _ (meta ++ _)) in Hf.
      by apply fence_free_app_inv in Hf.
  - intros (Hb & Hc & Hm). apply fence_free_iff_scans.
    pose proof (clean_fallback_readme brief checks meta round_num Hb Hc Hm)
      as Hcl.
    unfold clean in Hcl. rewrite ticks_app in Hcl.
    destruct (ticks 0 (generate_readme_fallback _ _ _ _)); [by eexists|done].
Qed.

Lemma generate_readme_fallback_fence_free_witness :
  fence_free (generate_readme_fallback (py "a `clock`")
                (Some [py "must load"]) (Some (py "- a.txt")) 1) = true.
Proof.
  apply (proj2 (generate_readme_fallback_fence_free (py "a `clock`")
                  (Some [py "must load"]) (py "- a.txt") 1)).
  repeat split; reflexivity.
Defined.

End ExtractorMore.

Section OrchestratorMore.
Context `{Env}.
Local Arguments N.eqb : simpl never.
Local Arguments len : simpl never.




End OrchestratorMore.


Section OrchestratorFiles.
Context `{Env}.
Local Arguments N.eqb : simpl never.
Local Arguments len : simpl never.

Lemma strip_core c x d :
  isspace c = false -> isspace d = false ->
  strip (c :: x ++ [d]) = c :: x ++ [d].
Proof.
  intros Hc Hd. unfold strip. rewrite lstrip_nonspace by done.
  exact (rstrip_snoc_nonspace (c :: x) d Hd).
Qed.

(** The fallback page and the fallback README end with one line feed,
    which is all that trimming removes from them. *)
Lemma strip_fallback_html brief :
  strip (FALLBACK_HTML_HEAD ++ brief ++ FALLBACK_HTML_TAIL) ++ NL
  = FALLBACK_HTML_HEAD ++ brief ++ FALLBACK_HTML_TAIL.
Proof.
  assert (exists h t,
            FALLBACK_HTML_HEAD = 60%N :: h
            /\ FALLBACK_HTML_TAIL = t ++ [62%N] ++ NL) as (h & t & Eh & Et).
  { eexists _, (py "</p>
  </body>
</html"). split; reflexivity. }
  rewrite Eh, Et.
  replace ((60%N :: h) ++ brief ++ t ++ [62%N] ++ NL)
    with ((60%N :: (h ++ brief ++ t) ++ [62%N]) ++ NL)
    by (rewrite <- !app_comm_cons; by rewrite <- !app_assoc).
  by rewrite strip_app_lf, strip_core.
Qed.

Lemma strip_fallback_readme brief checks meta round_num :
  strip (generate_readme_fallback brief checks (Some meta) round_num ++ NL)
  ++ NL
  = generate_readme_fallback brief checks (Some meta) round_num.
Proof.
  assert (exists x,
            generate_readme_fallback brief checks (Some meta) round_num
            = (35%N :: x ++ [46%N]) ++ NL) as [x ->].
  { unfold generate_readme_fallback.
    change (py "# Auto-generated README (Round ")
      with (35%N :: py " Auto-generated README (Round ").
    change (py "

## Setup
1. Open `index.html` in a browser.
2. No build steps required.

## Notes
This README was generated as a fallback because the LLM did not return an explicit README.
") with (py "

## Setup
1. Open `index.html` in a browser.
2. No build steps required.

## Notes
This README was generated as a fallback because the LLM did not return an explicit README" ++ [46%N] ++ NL).
    exists (py " Auto-generated README (Round " ++ str_of_int round_num
            ++ py ")

**Project brief:** " ++ brief ++ py "

**Attachments:**
" ++ str_or (Some meta) [] ++ py "

**Checks to meet:**
" ++ join NL (default [] checks) ++ py "

## Setup
1. Open `index.html` in a browser.
2. No build steps required.

## Notes
This README was generated as a fallback because the LLM did not return an explicit README").
    rewrite <- !app_comm_cons. by rewrite <- !app_assoc. }
  by rewrite !strip_app_lf, strip_core.
Qed.

(** X9: when the attachments are decoded (their urls are strings or
    absent), the call fails and neither the brief, the checks nor the
    attachment summary holds a fence, [index.html] is the fallback page
    with the brief in it and [README.md] is the fallback README, each
    without its final line feed; [attachments] is what the decoder
    returned. *)
Theorem generate_app_code_fallback_files fs brief atts checks round_num
    prev_readme :
  Forall (fun att => str_url att = true) (default [] atts) ->
  exists fs' saved meta,
    decode_attachments fs (Some (default [] atts)) = (fs', Ok saved)
    /\ summarize_attachment_meta fs' saved = Ok meta
    /\ forall e,
         call_gemini (user_prompt brief checks meta round_num prev_readme)
         = Raise e ->
         fence_free brief = true ->
         fence_free (join NL (default [] checks)) = true ->
         fence_free meta = true ->
         exists r html readme,
           generate_app_code fs brief atts checks round_num prev_readme
           = (fs', Ok r)
           /\ attachments r = saved
           /\ files r !! py "index.html" = Some html
           /\ html ++ NL = FALLBACK_HTML_HEAD ++ brief ++ FALLBACK_HTML_TAIL
           /\ files r !! py "README.md" = Some readme
           /\ readme ++ NL
              = generate_readme_fallback brief checks (Some meta) round_num.
Proof.
  intros Hstr.
  destruct (decode_attachments_ok fs (Some (default [] atts)) Hstr)
    as (fs' & saved & Hd).
  destruct (summarize_attachment_meta_ok fs' saved) as (meta & Hs).
  exists fs', saved, meta. do 2 (split; [done|]).
  rewrite (generate_app_code_unfold _ _ _ _ _ _ _ _ _ Hd Hs).
  intros e He Hb Hc Hm. rewrite He. unfold try_except.
  rewrite bind_Ok, extract_fallback_text, bind_Ok by done.
  eexists _, _, _. split; [done|]. split; [done|]. unfold files, fst, snd.
  destruct (files_lookup
              (strip (FALLBACK_HTML_HEAD ++ brief ++ FALLBACK_HTML_TAIL))
              (strip (generate_readme_fallback brief checks (Some meta)
                        round_num ++ NL))) as [Hi Hr].
  split; [exact Hi|]. split; [apply strip_fallback_html|].
  split; [exact Hr|apply strip_fallback_readme].
Qed.

(** X10: whatever the service answers, a result that [generate_app_code]
    returns carries exactly the records the decoder returned, its files are
    exactly [index.html] and [README.md], and the file system left is the
    one the decoder left. *)
Theorem generate_app_code_result fs brief atts checks round_num prev_readme
    fs' r :
  generate_app_code fs brief atts checks round_num prev_readme = (fs', Ok r) ->
  decode_attachments fs (Some (default [] atts)) = (fs', Ok (attachments r))
  /\ dom (files r) = {[ py "index.html"; py "README.md" ]}.
Proof.
  destruct (decode_attachments fs (Some (default [] atts)))
    as [fs1 [saved|e]] eqn:Hd.
  2: { unfold generate_app_code. by rewrite Hd. }
  destruct (summarize_attachment_meta_ok fs1 saved) as (meta & Hs).
  rewrite (generate_app_code_unfold _ _ _ _ _ _ _ _ _ Hd Hs).
  destruct (try_except _ _) as [text|e]; [rewrite bind_Ok|done].
  destruct (extract_parts text brief checks meta round_num) as [parts|e];
    [rewrite bind_Ok|done].
  intros [= <- <-]. split; [done|]. cbn [files].
  by rewrite dom_insert_L, dom_singleton_L.
Qed.

(** X11: the prompt embeds the brief, the attachment summary and the
    rendered checks verbatim.  The previous README enters it, under its
    heading, exactly in round 2 and when it is not empty; in any other
    round, or without one, the prompt is the one of a call without a
    previous README. *)
Theorem user_prompt_context brief checks meta round_num prev_readme :
  contains (user_prompt brief checks meta round_num prev_readme) brief = true
  /\ contains (user_prompt brief checks meta round_num prev_readme) meta
     = true
  /\ contains (user_prompt brief checks meta round_num prev_readme)
       (repr_list (default [] checks)) = true
  /\ (round_num = 2 -> truthy prev_readme = true ->
      contains (user_prompt brief checks meta round_num prev_readme)
        (py "### Previous README.md:" ++ NL ++ default [] prev_readme) = true)
  /\ (round_num <> 2 \/ truthy prev_readme = false ->
      user_prompt brief checks meta round_num prev_readme
      = user_prompt brief checks meta round_num None).
Proof.
  split; [|split; [|split; [|split]]].
  - unfold user_prompt. rewrite !(app_assoc _ _ (brief ++ _)).
    apply contains_app.
  - unfold user_prompt. rewrite !(app_assoc _ _ (meta ++ _)).
    apply contains_app.
  - unfold user_prompt.
    rewrite !(app_assoc _ _ (repr_list (default [] checks) ++ _)).
    apply contains_app.
  - intros -> Ht. unfold user_prompt, context_note. rewrite Ht. simpl andb.
    cbv iota.
    set (note := py "
### Previous README.md:
" ++ default [] prev_readme ++ py "

Revise and enhance this project according to the new brief below.
").
    rewrite !(app_assoc _ _ (note ++ _)). apply contains_mono.
    subst note.
    change (py "
### Previous README.md:
") with (NL ++ py "### Previous README.md:" ++ NL).
    replace ((NL ++ py "### Previous README.md:" ++ NL)
             ++ default [] prev_readme ++ py "

Revise and enhance this project according to the new brief below.
")
      with (NL ++ (py "### Previous README.md:" ++ NL ++ default [] prev_readme)
            ++ py "

Revise and enhance this project according to the new brief below.
") by (by rewrite <- !app_assoc).
    apply contains_app.
  - intros Hcase. unfold user_prompt, context_note.
    destruct Hcase as [Hr| ->].
    + by rewrite (proj2 (Z.eqb_neq _ _) Hr).
    + cbn [truthy]. by rewrite !andb_false_r.
Qed.

End OrchestratorFiles.

Lemma generate_app_code_fallback_files_witness :
  exists r html readme,
    generate_app_code
      (H := demo_env (Raise (GenericException (py "quota exceeded"))))
      ∅ (py "a clock") None (Some [py "must load"]) 2 None = (∅, Ok r)
    /\ attachments r = []
    /\ files r !! py "index.html" = Some html
    /\ html ++ NL = FALLBACK_HTML_HEAD ++ py "a clock" ++ FALLBACK_HTML_TAIL
    /\ files r !! py "README.md" = Some readme
    /\ readme ++ NL
       = generate_readme_fallback (py "a clock") (Some [py "must load"])
           (Some []) 2.
Proof.
  destruct (generate_app_code_fallback_files
              (H := demo_env (Raise (GenericException (py "quota exceeded"))))
              ∅ (py "a clock") None (Some [py "must load"]) 2 None
              (List.Forall_nil _))
    as (fs' & saved & meta & Hd & Hs & Hfail).
  injection Hd as <- <-. injection Hs as <-.
  exact (Hfail (GenericException (py "quota exceeded"))
           eq_refl eq_refl eq_refl eq_refl).
Defined.

Lemma generate_app_code_result_witness :
  decode_attachments (H := demo_env (Ok None)) ∅ (Some (default [] None))
  = (∅, Ok [])
  /\ dom ({[ py "index.html" := [];
             py "README.md" :=
               generate_readme_fallback (py "a clock") None (Some []) 1 ]}
            : gmap pystr pystr)
     = {[ py "index.html"; py "README.md" ]}.
Proof.
  pose proof (generate_app_code_result (H := demo_env (Ok None))
                ∅ (py "a clock") None None 1 None ∅
                {| files :=
                     {[ py "index.html" := [];
                        py "README.md" :=
                          generate_readme_fallback (py "a clock") None
                            (Some []) 1 ]};
                   attachments := [] |}) as Hw.
  exact (Hw eq_refl).
Defined.

Lemma user_prompt_context_witness :
  contains
    (user_prompt (H := demo_env (Ok None)) (py "add a dark mode") None []
       2 (Some (py "# Clock")))
    (py "### Previous README.md:
# Clock") = true
  /\ user_prompt (H := demo_env (Ok None)) (py "add a dark mode") None []
       1 (Some (py "# Clock"))
     = user_prompt (H := demo_env (Ok None)) (py "add a dark mode") None []
         1 None.
Proof.
  split.
  - exact (proj1 (proj2 (proj2 (proj2
             (user_prompt_context (H := demo_env (Ok None))
                (py "add a dark mode") None [] 2 (Some (py "# Clock"))))))
             eq_refl eq_refl).
  - apply (proj2 (proj2 (proj2 (proj2
             (user_prompt_context (H := demo_env (Ok None))
                (py "add a dark mode") None [] 1 (Some (py "# Clock"))))))).
    by left.
Defined.

(** * Further properties of the attachment decoder *)

Section Base64More.
Local Arguments N.eqb : simpl never.
Local Arguments len : simpl never.




(** Characters outside the alphabet and the padding are not read. *)
Lemma a2b_base64_loop_filter input quad_pos leftchar pads bin_data :
  a2b_base64_loop (List.filter b64_significant input) quad_pos leftchar pads
    bin_data
  = a2b_base64_loop input quad_pos leftchar pads bin_data.
Proof.
  revert quad_pos leftchar pads bin_data.
  induction input as [|c input IH]; intros q lc pads out; [done|].
  simpl List.filter. unfold b64_significant at 1.
  destruct (N.eqb c BASE64_PAD) eqn:Ep.
  - simpl. rewrite Ep. by repeat case_match.
  - destruct (table_a2b_base64 c) as [v|] eqn:Et.
    + rewrite bool_decide_eq_true_2 by (by eexists). simpl.
      rewrite Ep, Et. by repeat case_match.
    + rewrite bool_decide_eq_false_2 by (by intros [? ?]). simpl.
      by rewrite Ep, Et.
Qed.

(** X18: [base64.b64decode] does not read the characters outside the
    alphabet and the padding: a payload with line breaks, spaces or other
    ASCII characters in it decodes as the payload without them. *)
Theorem b64decode_skips s :
  forallb (fun c => (c <? 128)%N) s = true ->
  b64decode (List.filter b64_significant s) = b64decode s.
Proof.
  intros Hs. unfold b64decode. rewrite Hs.
  assert (forallb (fun c => (c <? 128)%N) (List.filter b64_significant s)
          = true) as ->.
  { apply forallb_forall. intros x Hx. apply filter_In in Hx as [Hx _].
    rewrite forallb_forall in Hs. by apply Hs. }
  apply a2b_base64_loop_filter.
Qed.

Lemma b64decode_skips_witness :
  b64decode (py "aGVsbG8=") = b64decode (py "aGVs
bG8 =
").
Proof.
  exact (b64decode_skips (py "aGVs
bG8 =
") eq_refl).
Defined.


End Base64More.

Section DecoderMore.
Context `{Env}.
Local Arguments N.eqb : simpl never.
Local Arguments len : simpl never.

Lemma decode_one_inv fs att fs' new :
  decode_one fs att = (fs', Ok new) ->
  new = [] \/
  exists r, new = [r] /\ is_data att = true
    /\ decode_try fs (input_name att) (input_url att) = (fs', Ok r).
Proof. apply decode_one_record. Qed.

Lemma write_file_frame fs path data fs' res p :
  write_file fs path data = (fs', res) -> file_of path <> p ->
  fs' !! p = fs !! p.
Proof.
  unfold write_file. destruct (open_wb fs path); [by intros [= <- <-]|].
  destruct (write_wb _ path data) as [[e partial]|]; intros [= <- <-] Hp;
    by rewrite lookup_insert_ne.
Qed.

Lemma decode_try_frame fs name url fs' res p :
  decode_try fs name url = (fs', res) -> file_of (tmp_path name) <> p ->
  fs' !! p = fs !! p.
Proof.
  unfold decode_try.
  destruct (split_max url (py ",") 1) as [|header [|b64data [|? ?]]];
    try by intros [= <- <-].
  destruct (split header (py ";")) as [|first rest]; [by intros [= <- <-]|].
  destruct (b64decode b64data) as [data|e]; [|by intros [= <- <-]].
  destruct (write_file fs (tmp_path name) data) as [fs1 [[]|e]] eqn:Ew;
    intros [= <- <-] Hp; by eapply write_file_frame.
Qed.

Lemma decode_one_frame fs att fs' res p :
  decode_one fs att = (fs', res) ->
  (is_data att = true -> file_of (tmp_path (input_name att)) <> p) ->
  fs' !! p = fs !! p.
Proof.
  destruct (str_url att) eqn:Hs;
    [|rewrite decode_one_not_str by done; by intros [= <- <-]].
  rewrite decode_one_str by done.
  destruct (is_data att); simpl negb; cbv iota; [|by intros [= <- <-]].
  destruct (decode_try fs _ _) as [fs1 r] eqn:Et. intros [= <- <-] Hp.
  eapply decode_try_frame; eauto.
Qed.

Lemma decode_loop_frame fs atts saved fs' res p :
  decode_loop fs atts saved = (fs', res) ->
  (forall att, att ∈ atts -> is_data att = true ->
               file_of (tmp_path (input_name att)) <> p) ->
  fs' !! p = fs !! p.
Proof.
  revert fs saved. induction atts as [|att atts IH]; intros fs saved; simpl.
  - by intros [= <- <-].
  - destruct (decode_one fs att) as [fs1 [new|e]] eqn:D1.
    + intros Hl Hp. rewrite (IH _ _ Hl) by (intros; apply Hp; [by right|done]).
      eapply decode_one_frame; [done|]. apply Hp. by left.
    + intros [= <- <-] Hp. eapply decode_one_frame; [done|].
      apply Hp. by left.
Qed.

(** X12: the decoder writes only to the files that the scratch paths of
    the inputs it tries to decode name; every other file holds at the end
    what it held before the call, whatever the call returns or raises.  A
    file is what a path resolves to: a path that differs from every scratch
    path as a string but names the same file as one of them is not
    covered. *)
Theorem decode_attachments_frame fs attachments fs' res file :
  decode_attachments fs attachments = (fs', res) ->
  (forall att, att ∈ data_inputs (default [] attachments) ->
               file_of (tmp_path (input_name att)) <> file) ->
  fs' !! file = fs !! file.
Proof.
  intros Hd Hp. unfold decode_attachments in Hd.
  eapply decode_loop_frame; [done|].
  intros att Ha Hu. apply Hp. unfold data_inputs.
  by apply list_elem_of_filter.
Qed.

Lemma decode_loop_order fs atts acc fs' out :
  decode_loop fs atts acc = (fs', Ok out) ->
  exists new, out = acc ++ new
    /\ sublist (map Saved.name new) (map input_name (data_inputs atts))
    /\ Forall (fun r => Saved.path r = tmp_path (Saved.name r)
                        /\ 0 <= Saved.size r) new.
Proof.
  revert fs acc. induction atts as [|att atts IH]; intros fs acc; simpl.
  - intros [= <- <-]. exists []. rewrite app_nil_r. by repeat constructor.
  - destruct (decode_one fs att) as [fs1 [new1|e]] eqn:D1; [|done].
    intros Hl. apply IH in Hl as (new & -> & Hs & Hf).
    apply decode_one_inv in D1 as [->|(r & -> & Hu & D1)].
    + exists new. rewrite app_nil_r. split; [done|]. split; [|done].
      unfold data_inputs.
      destruct (decide (is_data att = true)) as [Hu|Hu].
      * rewrite filter_cons_True by done. by apply sublist_cons.
      * by rewrite filter_cons_False by done.
    + apply decode_try_ok in D1 as (hd & b64 & data & _ & _ & _ & Hn & Hp & Hz).
      exists (r :: new). split; [by rewrite <- app_assoc|]. split.
      * unfold data_inputs. rewrite filter_cons_True by done. simpl.
        rewrite Hn. by apply sublist_skip.
      * constructor; [|done]. rewrite Hn, Hp, Hz. split; [done|].
        apply len_nonneg.
Qed.

(** X13: the records come in the order of the inputs: their names are the
    names of some of the inputs that were tried (an absent or empty name
    read as [attachment]), none twice for one input and none out of order;
    each record's path is the scratch path of its name and its size is not
    negative. *)
Theorem decode_attachments_order fs attachments fs' saved :
  decode_attachments fs attachments = (fs', Ok saved) ->
  sublist (map Saved.name saved)
    (map input_name (data_inputs (default [] attachments)))
  /\ Forall (fun r => Saved.path r = tmp_path (Saved.name r)
                      /\ 0 <= Saved.size r) saved.
Proof.
  intros Hd. apply decode_loop_order in Hd as (new & -> & Hs & Hf). done.
Qed.

Lemma decode_loop_files fs atts acc fs' out :
  NoDup ((fun att => file_of (tmp_path (input_name att)))
           <$> data_inputs atts) ->
  decode_loop fs atts acc = (fs', Ok out) ->
  exists new, out = acc ++ new
    /\ Forall (fun r => exists data,
                          fs' !! file_of (Saved.path r) = Some data
                          /\ Saved.size r = len data) new.
Proof.
  revert fs acc. induction atts as [|att atts IH]; intros fs acc Hnd; simpl.
  - intros [= <- <-]. exists []. by rewrite app_nil_r.
  - destruct (decode_one fs att) as [fs1 [new1|e]] eqn:D1; [|done].
    intros Hl.
    assert (NoDup ((fun att => file_of (tmp_path (input_name att)))
                     <$> data_inputs atts)) as Hnd'.
    { unfold data_inputs in *.
      destruct (decide (is_data att = true)) as [Hu|Hu].
      - rewrite filter_cons_True in Hnd by done.
        by apply NoDup_cons in Hnd as [_ ?].
      - by rewrite filter_cons_False in Hnd by done. }
    pose proof Hl as Hl'. apply (IH _ _ Hnd') in Hl as (new & -> & Hf).
    apply decode_one_inv in D1 as [->|(r & -> & Hu & D1)].
    + exists new. by rewrite app_nil_r.
    + apply decode_try_ok in D1 as (hd & b64 & data & _ & _ & -> & _ & Hp & Hz).
      exists (r :: new). split; [by rewrite <- app_assoc|].
      constructor; [|done]. exists data. split; [|done].
      rewrite Hp.
      rewrite (decode_loop_frame _ _ _ _ _
                 (file_of (tmp_path (input_name att))) Hl').
      { by rewrite lookup_insert_eq. }
      intros att' Ha' Hu' Heq.
      unfold data_inputs in Hnd. rewrite filter_cons_True in Hnd by done.
      rewrite fmap_cons in Hnd. apply NoDup_cons in Hnd as [Hn _].
      apply Hn. rewrite <- Heq.
      apply list_elem_of_fmap. exists att'. split; [done|].
      by apply list_elem_of_filter.
Qed.

(** X14: when the scratch paths of the inputs that are tried name
    pairwise distinct files (distinct after resolution, not only as
    strings), every record describes its file as the call leaves it: the
    file that the record's path names exists and holds as many bytes as the
    record's size says. *)
Theorem decode_attachments_files fs attachments fs' saved :
  NoDup ((fun att => file_of (tmp_path (input_name att)))
           <$> data_inputs (default [] attachments)) ->
  decode_attachments fs attachments = (fs', Ok saved) ->
  Forall (fun r => exists data, fs' !! file_of (Saved.path r) = Some data
                                /\ Saved.size r = len data) saved.
Proof.
  intros Hnd Hd. apply decode_loop_files in Hd as (new & -> & Hf); done.
Qed.

Lemma decode_one_raised fs att fs' e :
  is_data att = true ->
  decode_try fs (input_name att) (input_url att) = (fs', Raise e) ->
  decode_one fs att = (fs', Ok []).
Proof.
  intros Hu He. rewrite decode_one_str by (by apply is_data_str).
  by rewrite Hu, He.
Qed.

(** X15: an input that cannot be decoded is dropped before anything is
    written.  A [data:] url without a comma, and one whose text after the
    first comma [base64.b64decode] refuses, add no record and leave the
    file system as it was. *)
Theorem decode_one_malformed fs att :
  is_data att = true ->
  (Forall (fun c => c <> 44%N) (input_url att) ->
   decode_one fs att = (fs, Ok []))
  /\ (forall header b64data e,
        input_url att = header ++ py "," ++ b64data ->
        Forall (fun c => c <> 44%N) header ->
        b64decode b64data = Raise e ->
        decode_one fs att = (fs, Ok [])).
Proof.
  intros Hu. split.
  - intros Hc.
    eapply decode_one_raised; [done|]. unfold decode_try.
    rewrite split_max_none; [done|].
    apply (contains_absent_char _ _ 44); [by left|done].
  - intros header b64data e Eu Hc Hd.
    assert (exists e', decode_try fs (input_name att) (input_url att)
                       = (fs, Raise e')) as [e' He'].
    { unfold decode_try. rewrite Eu.
      rewrite split_max_cut; [|done|done|by apply (find_char 44)].
      rewrite split_max_zero.
      destruct (split header (py ";")); [by eexists|].
      rewrite Hd. by eexists. }
    by eapply decode_one_raised.
Qed.

(** The header of a data URI with parameters after the media type. *)
Lemma split_header mime params :
  valid_mime mime = true ->
  params = [] \/ (exists ps, params = py ";" ++ ps) ->
  exists rest, split (py "data:" ++ mime ++ params) (py ";")
               = (py "data:" ++ mime) :: rest.
Proof.
  intros Hm [->|[ps ->]].
  - exists []. rewrite app_nil_r. unfold split. apply split_max_none.
    apply (contains_absent_char _ _ 59); [by left|].
    apply Forall_app. split; [by repeat constructor|].
    by apply valid_mime_absent.
  - exists (split ps (py ";")).
    replace (py "data:" ++ mime ++ py ";" ++ ps)
      with ((py "data:" ++ mime) ++ py ";" ++ ps)
      by (by rewrite <- !app_assoc).
    apply split_cut; [done|]. apply (find_char 59).
    apply Forall_app. split; [by repeat constructor|].
    by apply valid_mime_absent.
Qed.

(** X16: the decoder reads the media type and nothing else of the header.
    For a url [data:<mime><params>,<payload>] with a valid media type and
    parameters that are absent or start with a semicolon, the payload is
    decoded as base64 whether or not the parameters say [base64], and the
    record carries [<mime>]. *)
Theorem decode_header_parameters fs att mime params payload data :
  att_url att
  = Some (PyStr (py "data:" ++ mime ++ params ++ py "," ++ payload)) ->
  valid_mime mime = true ->
  params = [] \/ (exists ps, params = py ";" ++ ps) ->
  Forall (fun c => c <> 44%N) params ->
  b64decode payload = Ok data ->
  decode_one fs att
  = match write_file fs (tmp_path (input_name att)) data with
    | (fs', Ok _) =>
        (fs', Ok [ {| Saved.name := input_name att;
                      Saved.path := tmp_path (input_name att);
                      Saved.mime := mime; Saved.size := len data |} ])
    | (fs', Raise _) => (fs', Ok [])
    end.
Proof.
  intros Hu Hm Hp Hc Hd.
  unfold decode_one. rewrite Hu. cbn [default from_option]. unfold id.
  rewrite startswith_app. simpl negb. cbv iota.
  fold (input_name att). unfold decode_try.
  replace (py "data:" ++ mime ++ params ++ py "," ++ payload)
    with ((py "data:" ++ mime ++ params) ++ py "," ++ payload)
    by (by rewrite <- !app_assoc).
  rewrite split_max_cut; [|done|done|].
  2: { apply (find_char 44).
       apply Forall_app. split; [by repeat constructor|].
       apply Forall_app. split; [|done]. by apply valid_mime_absent. }
  rewrite split_max_zero.
  destruct (split_header mime params Hm Hp) as [rest ->].
  destruct (mime_of_header mime Hm) as (? & _ & ->).
  rewrite Hd.
  by destruct (write_file fs (tmp_path (input_name att)) data)
    as [fs1 [[]|e]].
Qed.

Lemma decode_one_of_encoded fs att mime data :
  att_url att = Some (PyStr (data_uri mime (b64encode data))) ->
  valid_mime mime = true ->
  Forall (fun b => (b < 256)%N) data ->
  open_wb fs (tmp_path (input_name att)) = None ->
  write_wb (<[file_of (tmp_path (input_name att)) := []]> fs)
    (tmp_path (input_name att)) data = None ->
  decode_one fs att
  = (<[file_of (tmp_path (input_name att)) := data]> fs,
     Ok [ {| Saved.name := input_name att;
             Saved.path := tmp_path (input_name att);
             Saved.mime := mime; Saved.size := len data |} ]).
Proof.
  intros Hu Hm Hd Ho Hw.
  unfold decode_one. rewrite Hu. cbn [default from_option]. unfold id.
  change (startswith (data_uri mime (b64encode data)) (py "data:"))
    with (startswith (py "data:" ++ (mime ++ py ";base64," ++ b64encode data))
            (py "data:")).
  rewrite startswith_app. simpl negb. cbv iota.
  fold (input_name att).
  rewrite (decode_try_data_uri _ _ _ _ data);
    [|done|by apply b64decode_b64encode].
  unfold write_file. by rewrite Ho, Hw.
Qed.

(** X17: encoding and decoding are inverse on the way in.  An input whose
    url is the data URI of the standard encoding of [data] gives, when the
    file can be opened and written, one record of size [len data], and the
    file written holds [data] itself. *)
Theorem decode_encoded fs att mime data :
  att_url att = Some (PyStr (data_uri mime (b64encode data))) ->
  valid_mime mime = true ->
  Forall (fun b => (b < 256)%N) data ->
  open_wb fs (tmp_path (input_name att)) = None ->
  write_wb (<[file_of (tmp_path (input_name att)) := []]> fs)
    (tmp_path (input_name att)) data = None ->
  decode_one fs att
  = (<[file_of (tmp_path (input_name att)) := data]> fs,
     Ok [ {| Saved.name := input_name att;
             Saved.path := tmp_path (input_name att);
             Saved.mime := mime; Saved.size := len data |} ]).
Proof. apply decode_one_of_encoded. Qed.



End DecoderMore.

Lemma decode_attachments_frame_witness :
  fst (decode_attachments (H := demo_env (Ok None))
         {[ py "/tmp/llm_attachments/b.txt" := py "kept" ]}
         (Some [ {| att_name := Some (py "a.txt");
                    att_url :=
                      Some (PyStr (py "data:text/plain;base64,aGVsbG8=")) |} ]))
    !! py "/tmp/llm_attachments/b.txt"
  = Some (py "kept").
Proof.
  rewrite (decode_attachments_frame (H := demo_env (Ok None)) _ _ _ _
             (py "/tmp/llm_attachments/b.txt")
             (surjective_pairing _)).
  - reflexivity.
  - intros att Ha. vm_compute in Ha.
    apply list_elem_of_singleton in Ha. subst att. vm_compute. discriminate.
Defined.

Lemma decode_attachments_order_witness :
  exists fs' saved,
    decode_attachments (H := demo_env (Ok None)) ∅
      (Some [ {| att_name := Some (py "a.txt");
                 att_url :=
                   Some (PyStr (py "data:text/plain;base64,aGVsbG8=")) |};
              {| att_name := Some (py "bad.txt");
                 att_url := Some (PyStr (py "data:text/plain;base64,a")) |};
              {| att_name := None;
                 att_url :=
                   Some (PyStr (py "data:text/plain;base64,aGk=")) |} ])
    = (fs', Ok saved)
    /\ sublist (map Saved.name saved)
         [py "a.txt"; py "bad.txt"; py "attachment"].
Proof.
  eexists _, _. split; [reflexivity|].
  exact (proj1 (decode_attachments_order (H := demo_env (Ok None)) ∅
                  (Some [ {| att_name := Some (py "a.txt");
                             att_url :=
                               Some (PyStr (py "data:text/plain;base64,aGVsbG8=")) |};
                          {| att_name := Some (py "bad.txt");
                             att_url :=
                               Some (PyStr (py "data:text/plain;base64,a")) |};
                          {| att_name := None;
                             att_url :=
                               Some (PyStr (py "data:text/plain;base64,aGk=")) |} ])
                  _ _ eq_refl)).
Defined.

Lemma decode_attachments_files_witness :
  exists fs' saved,
    decode_attachments (H := demo_env (Ok None)) ∅
      (Some [ {| att_name := Some (py "a.txt");
                 att_url :=
                   Some (PyStr (py "data:text/plain;base64,aGVsbG8=")) |};
              {| att_name := None;
                 att_url :=
                   Some (PyStr (py "data:text/plain;base64,aGk=")) |} ])
    = (fs', Ok saved)
    /\ Forall (fun r => exists data,
                          fs' !! normpath (Saved.path r) = Some data
                          /\ Saved.size r = len data) saved.
Proof.
  eexists _, _. split; [reflexivity|].
  apply (decode_attachments_files (H := demo_env (Ok None)) ∅
           (Some [ {| att_name := Some (py "a.txt");
                      att_url :=
                        Some (PyStr (py "data:text/plain;base64,aGVsbG8=")) |};
                   {| att_name := None;
                      att_url :=
                        Some (PyStr (py "data:text/plain;base64,aGk=")) |} ])).
  - apply (bool_decide_unpack _). vm_compute. reflexivity.
  - reflexivity.
Defined.

(** Two names that differ as strings and name one file: the second input
    overwrites the file of the first, whose record keeps the size of what
    it wrote. *)
Example decode_attachments_same_file :
  decode_attachments (H := demo_env (Ok None)) ∅
    (Some [ {| att_name := Some (py "a.txt");
               att_url :=
                 Some (PyStr (py "data:text/plain;base64,aGVsbG8=")) |};
            {| att_name := Some (py "../llm_attachments/a.txt");
               att_url := Some (PyStr (py "data:text/plain;base64,aGk=")) |} ])
  = ({[ py "/tmp/llm_attachments/a.txt" := py "hi" ]},
     Ok [ {| Saved.name := py "a.txt";
             Saved.path := py "/tmp/llm_attachments/a.txt";
             Saved.mime := py "text/plain"; Saved.size := 5 |};
          {| Saved.name := py "../llm_attachments/a.txt";
             Saved.path :=
               py "/tmp/llm_attachments/../llm_attachments/a.txt";
             Saved.mime := py "text/plain"; Saved.size := 2 |} ]).
Proof. reflexivity. Qed.

Lemma decode_one_malformed_witness :
  decode_one (H := demo_env (Ok None)) ∅
    {| att_name := Some (py "a.txt");
       att_url := Some (PyStr (py "data:text/plain;base64")) |} = (∅, Ok [])
  /\ decode_one (H := demo_env (Ok None)) ∅
       {| att_name := Some (py "a.txt");
          att_url :=
            Some (PyStr (py "data:text/plain;base64,a")) |} = (∅, Ok []).
Proof.
  split.
  - apply (decode_one_malformed (H := demo_env (Ok None)) ∅
             {| att_name := Some (py "a.txt");
                att_url :=
                  Some (PyStr (py "data:text/plain;base64")) |} eq_refl).
    apply (bool_decide_unpack _). vm_compute. reflexivity.
  - apply (proj2 (decode_one_malformed (H := demo_env (Ok None)) ∅
                    {| att_name := Some (py "a.txt");
                       att_url :=
                         Some (PyStr (py "data:text/plain;base64,a")) |}
                    eq_refl)
             (py "data:text/plain;base64") (py "a")
             (BinasciiError
                (py "Invalid base64-encoded string: number of data characters (1) cannot be 1 more than a multiple of 4"))).
    + reflexivity.
    + apply (bool_decide_unpack _). vm_compute. reflexivity.
    + reflexivity.
Defined.

Lemma decode_header_parameters_witness :
  decode_one (H := demo_env (Ok None)) ∅
    {| att_name := Some (py "a.txt");
       att_url := Some (PyStr (py "data:text/plain;charset=utf-8,aGVsbG8=")) |}
  = ({[ py "/tmp/llm_attachments/a.txt" := py "hello" ]},
     Ok [ {| Saved.name := py "a.txt";
             Saved.path := py "/tmp/llm_attachments/a.txt";
             Saved.mime := py "text/plain"; Saved.size := 5 |} ]).
Proof.
  rewrite (decode_header_parameters (H := demo_env (Ok None)) ∅
             {| att_name := Some (py "a.txt");
                att_url :=
                  Some (PyStr (py "data:text/plain;charset=utf-8,aGVsbG8=")) |}
             (py "text/plain") (py ";charset=utf-8") (py "aGVsbG8=")
             (py "hello") eq_refl eq_refl).
  - reflexivity.
  - right. by exists (py "charset=utf-8").
  - apply (bool_decide_unpack _). vm_compute. reflexivity.
  - reflexivity.
Defined.

Lemma decode_encoded_witness :
  decode_one (H := demo_env (Ok None)) ∅
    {| att_name := Some (py "a.txt");
       att_url := Some (PyStr (py "data:text/plain;base64,aGVsbG8=")) |}
  = ({[ py "/tmp/llm_attachments/a.txt" := py "hello" ]},
     Ok [ {| Saved.name := py "a.txt";
             Saved.path := py "/tmp/llm_attachments/a.txt";
             Saved.mime := py "text/plain"; Saved.size := 5 |} ]).
Proof.
  rewrite (decode_encoded (H := demo_env (Ok None)) ∅
             {| att_name := Some (py "a.txt");
                att_url :=
                  Some (PyStr (py "data:text/plain;base64,aGVsbG8=")) |}
             (py "text/plain") (py "hello") eq_refl eq_refl).
  - reflexivity.
  - apply (bool_decide_unpack _). vm_compute. reflexivity.
  - reflexivity.
  - reflexivity.
Defined.


(** * Further properties of the attachment summarizer *)

Section SummarizerMore.
Context `{Env}.
Local Arguments N.eqb : simpl never.
Local Arguments len : simpl never.

Lemma file_lines_concat f : concat (file_lines f) = f.
Proof.
  induction f as [|c f IH]; [done|]. simpl.
  destruct (N.eqb c 10); simpl; [by rewrite IH|].
  destruct (file_lines f) as [|l ls]; simpl in *; by rewrite <- IH.
Qed.

Lemma file_lines_readline c f :
  file_lines (c :: f)
  = fst (readline (c :: f)) :: file_lines (snd (readline (c :: f))).
Proof.
  revert c. induction f as [|d f IH]; intros c.
  - simpl. by destruct (N.eqb c 10).
  - change (file_lines (c :: d :: f))
      with (if N.eqb c 10 then [c] :: file_lines (d :: f)
            else match file_lines (d :: f) with
                 | [] => [[c]]
                 | l :: ls => (c :: l) :: ls
                 end).
    change (readline (c :: d :: f))
      with (if N.eqb c 10 then ([c], d :: f)
            else let '(l, r') := readline (d :: f) in (c :: l, r')).
    destruct (N.eqb c 10); [done|]. rewrite IH.
    by destruct (readline (d :: f)).
Qed.

(** Reading [n] lines succeeds exactly when the file has [n] lines left. *)
Lemma next_stripped_lines n f :
  next_stripped n f
  = if (n <=? length (file_lines f))%nat
    then Ok (map strip (take n (file_lines f)))
    else Raise StopIteration.
Proof.
  revert f. induction n as [|n IH]; intros f; [done|].
  destruct f as [|c f]; [done|].
  cbn [next_stripped next]. rewrite bind_Ok, IH, file_lines_readline.
  cbn [length take map]. change (S n <=? S ?m)%nat with (n <=? m)%nat.
  by destruct (n <=? _)%nat.
Qed.

Lemma previewed_csv s :
  endswith (Saved.name s) (py ".csv") = true -> previewed s = true.
Proof.
  intros Hc. unfold previewed. cbn [existsb]. rewrite Hc.
  by rewrite !orb_true_r.
Qed.

(** X20: the preview of a [.csv] attachment whose file can be read, in
    full.  With three lines or more in the file the entry previews the
    first three, each trimmed, joined by line feeds; with fewer,
    [next(f)] raises [StopIteration], whose text is empty, and the entry
    is [- <name> (<mime>): (could not read preview: )]: a short CSV file
    is reported as unreadable and none of its lines is shown. *)
Theorem summarize_csv fs s bytes :
  endswith (Saved.name s) (py ".csv") = true ->
  fs !! file_of (Saved.path s) = Some bytes ->
  read_error fs (Saved.path s) = None ->
  let lines := file_lines (universal_newlines (utf8_decode_ignore bytes)) in
  summarize_one fs s
  = Ok (if (3 <=? length lines)%nat
        then preview_entry (Saved.name s) (Saved.mime s)
               (join NL (map strip (take 3 lines)))
        else py "- " ++ Saved.name s ++ py " (" ++ Saved.mime s
             ++ py "): (could not read preview: )").
Proof.
  intros Hc Hp He lines. unfold summarize_one, summarize_try.
  fold (previewed s). rewrite (previewed_csv s Hc).
  rewrite (open_r_ok _ _ _ Hp He), bind_Ok, Hc, next_stripped_lines.
  fold lines. destruct (3 <=? length lines)%nat; [by rewrite !bind_Ok|].
  done.
Qed.

Lemma open_r_agree fs fs' p :
  fs !! file_of p = fs' !! file_of p ->
  read_error fs p = read_error fs' p ->
  open_r fs p = open_r fs' p.
Proof. intros Hp He. unfold open_r. by rewrite Hp, He. Qed.

Lemma summarize_loop_agree fs fs' saved summaries :
  (forall s, s ∈ saved -> summarize_one fs s = summarize_one fs' s) ->
  summarize_loop fs saved summaries = summarize_loop fs' saved summaries.
Proof.
  revert summaries. induction saved as [|s saved IH]; intros summaries Ha;
    [done|].
  simpl. rewrite (Ha s) by (by left).
  destruct (summarize_one fs' s) as [line|e]; [|done].
  rewrite !bind_Ok. apply IH. intros s' Hs'. apply Ha. by right.
Qed.

(** X21: the summarizer reads the files of the previewed records and
    nothing else.  Two file systems that agree on the paths of the records
    whose mime starts with [text] or whose name ends in [.md], [.txt],
    [.json] or [.csv] give the same summary; for the other records no file
    is opened at all (their files may be missing). *)
Theorem summarize_reads_previewed fs fs' saved :
  (forall s, s ∈ saved -> previewed s = true ->
             fs !! file_of (Saved.path s) = fs' !! file_of (Saved.path s)
             /\ read_error fs (Saved.path s)
                = read_error fs' (Saved.path s)) ->
  summarize_attachment_meta fs saved = summarize_attachment_meta fs' saved.
Proof.
  intros Ha. unfold summarize_attachment_meta.
  rewrite (summarize_loop_agree fs fs'); [done|].
  intros s Hs. unfold summarize_one, summarize_try. fold (previewed s).
  destruct (previewed s) eqn:Hq; [|done].
  destruct (Ha s Hs Hq) as [Hp He]. by rewrite (open_r_agree fs fs').
Qed.

Lemma summarize_loop_acc fs saved summaries lines :
  summarize_loop fs saved [] = Ok lines ->
  summarize_loop fs saved summaries = Ok (summaries ++ lines).
Proof.
  intros Hl.
  destruct (summarize_loop_lines fs saved summaries) as (l1 & -> & H1).
  destruct (summarize_loop_lines fs saved []) as (l2 & E2 & H2).
  rewrite E2 in Hl. injection Hl as <-. do 2 f_equal.
  clear E2. revert l2 H2. induction H1 as [|s x saved l1 Hx _ IH];
    intros l2 H2; inversion H2 as [|? y ? l2' Hy H2']; subst; [done|].
  rewrite Hx in Hy. injection Hy as <-. f_equal. by apply IH.
Qed.

Lemma summarize_loop_app fs a b summaries la lb :
  summarize_loop fs a [] = Ok la -> summarize_loop fs b [] = Ok lb ->
  summarize_loop fs (a ++ b) summaries = Ok (summaries ++ la ++ lb)
  /\ length la = length a /\ length lb = length b.
Proof.
  intros Ha Hb. split.
  - revert summaries la Ha. induction a as [|s a IH]; intros summaries la Ha.
    + injection Ha as <-. by apply summarize_loop_acc.
    + simpl in *. destruct (summarize_one fs s) as [line|e]; [|done].
      rewrite bind_Ok in Ha. rewrite bind_Ok.
      destruct (summarize_loop_lines fs a []) as (la' & Ea & _).
      rewrite (summarize_loop_acc _ _ [line] _ Ea) in Ha.
      injection Ha as <-. rewrite (IH _ _ Ea).
      by rewrite <- !app_assoc.
  - destruct (summarize_loop_lines fs a []) as (la' & Ea & Hla).
    destruct (summarize_loop_lines fs b []) as (lb' & Eb & Hlb).
    rewrite Ea in Ha. rewrite Eb in Hb. injection Ha as <-.
    injection Hb as <-.
    split; symmetry; by eapply Forall2_length.
Qed.

Lemma join_app sep l1 l2 :
  l1 <> [] -> l2 <> [] ->
  join sep (l1 ++ l2) = join sep l1 ++ sep ++ join sep l2.
Proof.
  intros H1 H2. induction l1 as [|x l1 IH]; [done|].
  destruct l1 as [|y l1].
  - simpl app. by rewrite join_cons.
  - change ((x :: y :: l1) ++ l2) with (x :: ((y :: l1) ++ l2)).
    rewrite (join_cons sep x ((y :: l1) ++ l2)) by done.
    rewrite IH by done. rewrite (join_cons sep x (y :: l1)) by done.
    by rewrite <- !app_assoc.
Qed.

(** X22: the summary of a list is made of the summaries of its parts: for
    two lists of records that are not empty, the summary of their
    concatenation is the summary of the first, a line feed, and the summary
    of the second; the summary of the empty list is the empty string. *)
Theorem summarize_app fs a b :
  a <> [] -> b <> [] ->
  exists ta tb,
    summarize_attachment_meta fs a = Ok ta
    /\ summarize_attachment_meta fs b = Ok tb
    /\ summarize_attachment_meta fs (a ++ b) = Ok (ta ++ NL ++ tb)
    /\ summarize_attachment_meta fs [] = Ok [].
Proof.
  intros Hna Hnb. unfold summarize_attachment_meta.
  destruct (summarize_loop_lines fs a []) as (la & Ea & _).
  destruct (summarize_loop_lines fs b []) as (lb & Eb & _).
  rewrite app_nil_l in Ea, Eb.
  destruct (summarize_loop_app fs a b [] la lb Ea Eb) as (Eab & Hla & Hlb).
  rewrite Ea, Eb, Eab, !bind_Ok. exists (join NL la), (join NL lb).
  do 2 (split; [done|]). split; [|done].
  rewrite app_nil_l, join_app; [done| |].
  - intros ->. by destruct a.
  - intros ->. by destruct b.
Qed.

(** The preview of a file that is not a CSV file. *)
Lemma summarize_one_text fs s bytes :
  previewed s = true ->
  endswith (Saved.name s) (py ".csv") = false ->
  fs !! file_of (Saved.path s) = Some bytes ->
  read_error fs (Saved.path s) = None ->
  summarize_one fs s
  = Ok (preview_entry (Saved.name s) (Saved.mime s)
          (take 1000 (universal_newlines (utf8_decode_ignore bytes)))).
Proof.
  intros Hq Hc Hp He. unfold summarize_one, summarize_try.
  fold (previewed s). rewrite Hq, (open_r_ok _ _ _ Hp He), bind_Ok, Hc.
  rewrite bind_Ok. unfold try_except, preview_entry.
  do 6 f_equal. unfold read, fst.
  rewrite replace_same, slice_prefix by lia.
  rewrite take_take, Nat.min_id. by change (Z.to_nat 1000) with 1000%nat.
Qed.

(** Decoding drops bytes or merges them: the text is not longer than the
    file. *)
Lemma utf8_decode_ignore_length bs :
  (length (utf8_decode_ignore bs) <= length bs)%nat.
Proof.
  assert (forall n bs, (length bs <= n)%nat ->
            (length (utf8_decode_ignore bs) <= length bs)%nat) as Hn.
  { clear bs. induction n as [|n IH]; intros bs Hl.
    - destruct bs; [done|simpl in Hl; lia].
    - destruct bs as [|b0 r0]; [done|]. simpl in Hl.
      assert (length (utf8_decode_ignore r0) <= length r0)%nat
        by (apply IH; lia).
      cbn [utf8_decode_ignore].
      repeat case_match; subst; cbn [length] in *;
        try lia;
        match goal with
        | |- (S (length (utf8_decode_ignore ?r)) <= _)%nat =>
            assert (length (utf8_decode_ignore r) <= length r)%nat
              by (apply IH; lia); lia
        end. }
  by apply (Hn (length bs)).
Qed.

Lemma universal_newlines_text s :
  (length (universal_newlines s) <= length s)%nat
  /\ Forall (fun c => c <> 13%N) (universal_newlines s).
Proof.
  assert (forall n s, (length s <= n)%nat ->
            (length (universal_newlines s) <= length s)%nat
            /\ Forall (fun c => c <> 13%N) (universal_newlines s)) as Hn.
  { clear s. induction n as [|n IH]; intros s Hl.
    - destruct s; [by split|simpl in Hl; lia].
    - destruct s as [|c r]; [by split|]. simpl in Hl.
      destruct (IH r ltac:(lia)) as [Hr Hf].
      cbn [universal_newlines].
      destruct (N.eqb_spec c 13) as [->|Hc].
      + destruct r as [|d r']; [by repeat constructor|].
        destruct (N.eqb d 10).
        * simpl in Hl. destruct (IH r' ltac:(lia)) as [Hr' Hf'].
          cbn [length]. split; [lia|by constructor].
        * cbn [length] in *. split; [lia|by constructor].
      + cbn [length]. split; [lia|by constructor]. }
  by apply (Hn (length s)).
Qed.

(** X23: the preview of a file that is not a CSV file is bounded and
    clean: it is the start of the text of the file, at most 1000
    characters and at most as many characters as the file has bytes, and
    it holds no carriage return (line ends are read as line feeds). *)
Theorem summarize_preview_bounded fs s bytes :
  previewed s = true ->
  endswith (Saved.name s) (py ".csv") = false ->
  fs !! file_of (Saved.path s) = Some bytes ->
  read_error fs (Saved.path s) = None ->
  exists preview,
    summarize_one fs s
    = Ok (preview_entry (Saved.name s) (Saved.mime s) preview)
    /\ len preview <= 1000
    /\ len preview <= len bytes
    /\ Forall (fun c => c <> 13%N) preview.
Proof.
  intros Hq Hc Hp He. eexists. split; [by apply summarize_one_text|].
  pose proof (utf8_decode_ignore_length bytes).
  destruct (universal_newlines_text (utf8_decode_ignore bytes)) as [Hl Hf].
  unfold len. rewrite length_take. split; [lia|]. split; [lia|].
  by apply Forall_take.
Qed.

(** X24: the decoder and the summarizer compose.  An input whose url is
    the data URI of the encoding of an ASCII text without carriage
    returns, under a name or a media type that is previewed and not a CSV
    name, is decoded to one record, and, when the file written can be read
    back, the summary of that record is the entry with the first 1000
    characters of the very text that was encoded. *)
Theorem decode_then_summarize fs att mime data :
  att_url att = Some (PyStr (data_uri mime (b64encode data))) ->
  valid_mime mime = true ->
  startswith mime (py "text")
  || existsb (endswith (input_name att))
       [py ".md"; py ".txt"; py ".json"; py ".csv"] = true ->
  endswith (input_name att) (py ".csv") = false ->
  Forall (fun b => (b < 128)%N) data ->
  Forall (fun b => b <> 13%N) data ->
  open_wb fs (tmp_path (input_name att)) = None ->
  write_wb (<[file_of (tmp_path (input_name att)) := []]> fs)
    (tmp_path (input_name att)) data = None ->
  exists fs' saved,
    decode_attachments fs (Some [att]) = (fs', Ok saved)
    /\ length saved = 1%nat
    /\ (read_error fs' (tmp_path (input_name att)) = None ->
        summarize_attachment_meta fs' saved
        = Ok (preview_entry (input_name att) mime (take 1000 data))).
Proof.
  intros Hu Hm Hq Hc Ha Hr Ho Hw.
  eexists _, _. split.
  { unfold decode_attachments. cbn [default from_option]. unfold id.
    cbn [decode_loop].
    rewrite (decode_one_of_encoded fs att mime data); try done.
    eapply Forall_impl; [exact Ha|]. intros b Hb. simpl in Hb. lia. }
  split; [done|]. intros He.
  unfold summarize_attachment_meta. rewrite app_nil_l. cbn [summarize_loop].
  rewrite (summarize_one_text _ _ data); try done.
  - rewrite !bind_Ok. cbn [app join].
    by rewrite utf8_decode_ascii, universal_newlines_no_cr.
  - cbn [Saved.path]. by rewrite lookup_insert_eq.
Qed.

End SummarizerMore.

Lemma summarize_csv_witness :
  summarize_one (H := demo_env (Ok None))
    {[ py "/tmp/llm_attachments/t.csv" := py "a,b
1,2
" ]}
    {| Saved.name := py "t.csv"; Saved.path := py "/tmp/llm_attachments/t.csv";
       Saved.mime := py "text/csv"; Saved.size := 8 |}
  = Ok (py "- t.csv (text/csv): (could not read preview: )").
Proof.
  exact (summarize_csv (H := demo_env (Ok None))
           {[ py "/tmp/llm_attachments/t.csv" := py "a,b
1,2
" ]}
           {| Saved.name := py "t.csv";
              Saved.path := py "/tmp/llm_attachments/t.csv";
              Saved.mime := py "text/csv"; Saved.size := 8 |}
           (py "a,b
1,2
") eq_refl eq_refl eq_refl).
Defined.

Lemma summarize_reads_previewed_witness :
  summarize_attachment_meta (H := demo_env (Ok None)) ∅
    [ {| Saved.name := py "logo.png";
         Saved.path := py "/tmp/llm_attachments/logo.png";
         Saved.mime := py "image/png"; Saved.size := 2048 |} ]
  = summarize_attachment_meta (H := demo_env (Ok None))
      {[ py "/tmp/llm_attachments/logo.png" := py "PNG" ]}
      [ {| Saved.name := py "logo.png";
           Saved.path := py "/tmp/llm_attachments/logo.png";
           Saved.mime := py "image/png"; Saved.size := 2048 |} ].
Proof.
  apply (summarize_reads_previewed (H := demo_env (Ok None))).
  intros s Hs. apply list_elem_of_singleton in Hs. subst s.
  vm_compute. discriminate.
Defined.

Lemma summarize_app_witness :
  exists ta tb,
    summarize_attachment_meta (H := demo_env (Ok None)) ∅
      [ {| Saved.name := py "a.png"; Saved.path := py "/tmp/a.png";
           Saved.mime := py "image/png"; Saved.size := 1 |} ] = Ok ta
    /\ summarize_attachment_meta (H := demo_env (Ok None)) ∅
         [ {| Saved.name := py "b.png"; Saved.path := py "/tmp/b.png";
              Saved.mime := py "image/png"; Saved.size := 2 |} ] = Ok tb
    /\ summarize_attachment_meta (H := demo_env (Ok None)) ∅
         [ {| Saved.name := py "a.png"; Saved.path := py "/tmp/a.png";
              Saved.mime := py "image/png"; Saved.size := 1 |};
           {| Saved.name := py "b.png"; Saved.path := py "/tmp/b.png";
              Saved.mime := py "image/png"; Saved.size := 2 |} ]
       = Ok (ta ++ NL ++ tb).
Proof.
  destruct (summarize_app (H := demo_env (Ok None)) ∅
              [ {| Saved.name := py "a.png"; Saved.path := py "/tmp/a.png";
                   Saved.mime := py "image/png"; Saved.size := 1 |} ]
              [ {| Saved.name := py "b.png"; Saved.path := py "/tmp/b.png";
                   Saved.mime := py "image/png"; Saved.size := 2 |} ])
    as (ta & tb & Ea & Eb & Eab & _); [discriminate|discriminate|].
  exists ta, tb. split; [exact Ea|]. split; [exact Eb|exact Eab].
Defined.

Lemma summarize_preview_bounded_witness :
  exists preview,
    summarize_one (H := demo_env (Ok None))
      {[ py "/tmp/llm_attachments/a.txt" := [104; 105; 13; 10]%N ]}
      {| Saved.name := py "a.txt";
         Saved.path := py "/tmp/llm_attachments/a.txt";
         Saved.mime := py "text/plain"; Saved.size := 4 |}
    = Ok (preview_entry (py "a.txt") (py "text/plain") preview)
    /\ len preview <= 1000
    /\ len preview <= 4
    /\ Forall (fun c => c <> 13%N) preview.
Proof.
  exact (summarize_preview_bounded (H := demo_env (Ok None))
           {[ py "/tmp/llm_attachments/a.txt" := [104; 105; 13; 10]%N ]}
           {| Saved.name := py "a.txt";
              Saved.path := py "/tmp/llm_attachments/a.txt";
              Saved.mime := py "text/plain"; Saved.size := 4 |}
           [104; 105; 13; 10]%N eq_refl eq_refl eq_refl eq_refl).
Defined.

Lemma decode_then_summarize_witness :
  exists fs' saved,
    decode_attachments (H := demo_env (Ok None)) ∅
      (Some [ {| att_name := Some (py "a.txt");
                 att_url :=
                   Some (PyStr (py "data:text/plain;base64,aGVsbG8=")) |} ])
    = (fs', Ok saved)
    /\ length saved = 1%nat
    /\ summarize_attachment_meta (H := demo_env (Ok None)) fs' saved
       = Ok (py "- a.txt (text/plain): preview: hello").
Proof.
  destruct (decode_then_summarize (H := demo_env (Ok None)) ∅
              {| att_name := Some (py "a.txt");
                 att_url :=
                   Some (PyStr (py "data:text/plain;base64,aGVsbG8=")) |}
              (py "text/plain") (py "hello") eq_refl eq_refl eq_refl eq_refl)
    as (fs' & saved & Ed & Hl & Hs).
  - apply (bool_decide_unpack _). vm_compute. reflexivity.
  - apply (bool_decide_unpack _). vm_compute. reflexivity.
  - reflexivity.
  - reflexivity.
  - exists fs', saved. split; [exact Ed|]. split; [exact Hl|].
    exact (Hs eq_refl).
Defined.

(** * The files of the result *)

Section ResultFiles.
Context `{Env}.
Local Arguments N.eqb : simpl never.
Local Arguments len : simpl never.














End ResultFiles.


(** The same for the text the [except] branch builds from a brief that is
    a fence: the segment at position 3 is a line feed, and [README.md] is
    the empty string although the call failed. *)
Example generate_app_code_fence_brief :
  extract_parts (fallback_text (py "```") None [] 1) (py "```") None [] 1
  = Ok (strip FALLBACK_HTML_HEAD, []).
Proof. reflexivity. Qed.

(** And for a response of two blocks of which the first holds only a line
    feed: [index.html] is the empty string. *)
Example generate_app_code_blank_block :
  extract_parts (py "```html

```
```markdown
# Doc
```") [] None [] 1 = Ok ([], py "# Doc").
Proof. reflexivity. Qed.

